(** * valentine.py: the heart-curve animation

    A shallow embedding of [ValentineHeart] (src/valentine.py): the
    mathematical core ([_heart_curve], [_ease_in_out]), the per-frame
    update [_update] and the event handlers [_on_click], [_on_motion] and
    [_on_key_press], followed by the properties of the animation state
    machine.

    Numbers.  Python's [int] is [Z].  A Python/NumPy [float] is a real
    number of [R]: rounding and overflow of binary64 are outside this
    model.  The two NumPy operations of the curve that answer NaN or an
    infinity on part of their domain ([np.sqrt] below zero, [**] on a
    negative base) are partial: they return [option R], [None] standing
    for a value that is not finite.  The arithmetic of the build phase,
    which calls no library function, is given on binary64 floats as well
    (the definitions named [_b64]) and evaluated there, and so is one
    sample of the curve, with the sine and the power of the C library as
    parameters: where a property of the reals fails on the floats of the
    program, the counterexample is stated there. *)

From Stdlib Require Import Floats Uint63.
From Stdlib Require Import String ZArith Reals Lra Lia Bool List.
Import ListNotations.

Local Open Scope string_scope.
Local Open Scope Z_scope.

(** ** Class constants *)

Definition K_FINAL : Z := 50.
Definition NUM_POINTS : nat := 3000.
Definition BUILD_FRAMES : Z := 100.
Definition PULSE_FRAMES : Z := 60.
Definition INITIAL_FPS : Z := 3.
Definition SPLASH_FPS : Z := 15.

(** ** Mathematical core *)

Section MathCore.
Local Open Scope R_scope.

(** [np.clip(t, lo, hi)]: [minimum(maximum(t, lo), hi)]. *)
Definition np_clip (t lo hi : R) : R := Rmin (Rmax t lo) hi.

(** [np.sqrt]: NaN below zero. *)
Definition np_sqrt (v : R) : option R :=
  if Rlt_dec v 0 then None else Some (sqrt v).

(** [b ** e] on floats: NaN on a negative base (the exponents used here
    are not integers), an infinity at [0 ** e] with [e < 0]. *)
Definition np_power (b e : R) : option R :=
  if Rlt_dec b 0 then None
  else if Req_dec_T b 0 then
    (if Rlt_dec e 0 then None
     else if Req_dec_T e 0 then Some 1 else Some 0)
  else Some (Rpower b e).

(** [np.linspace(start, stop, num)]. *)
Definition linspace (start stop : R) (num : nat) : list R :=
  map (fun i => start + INR i * ((stop - start) / INR (num - 1)))
      (seq 0 num).

(** [self.x = np.linspace(-np.sqrt(3), np.sqrt(3), self.NUM_POINTS)] *)
Definition x_samples : list R := linspace (- sqrt 3) (sqrt 3) NUM_POINTS.

(** One sample of [_heart_curve]:
    [base + wave * envelope] with
    [base = np.abs(x) ** (2.0 / 3.0)],
    [wave = amplitude * np.sin(k * x)],
    [envelope = np.sqrt(np.maximum(0.0, 3.0 - x ** 2))]. *)
Definition heart_point (k amplitude x : R) : option R :=
  let base := np_power (Rabs x) (2 / 3) in
  let wave := amplitude * sin (k * x) in
  let envelope := np_sqrt (Rmax 0 (3 - x ^ 2)) in
  match base, envelope with
  | Some b, Some e => Some (b + wave * e)
  | _, _ => None
  end.

(** [_heart_curve(self, k, amplitude)], elementwise over [self.x]. *)
Definition heart_curve (x : list R) (k amplitude : R) : list (option R) :=
  map (heart_point k amplitude) x.

(** The same sample without [np.maximum(0.0, _)] around the radicand:
    what the clamp is there to prevent. *)
Definition heart_point_unclamped (k amplitude x : R) : option R :=
  let base := np_power (Rabs x) (2 / 3) in
  let wave := amplitude * sin (k * x) in
  let envelope := np_sqrt (3 - x ^ 2) in
  match base, envelope with
  | Some b, Some e => Some (b + wave * e)
  | _, _ => None
  end.

(** [_ease_in_out(t)]: [t = np.clip(t, 0.0, 1.0)], then
    [t * t * (3.0 - 2.0 * t)]. *)
Definition ease_in_out (t : R) : R :=
  let t := np_clip t 0 1 in
  t * t * (3 - 2 * t).

End MathCore.

(** ** The build arithmetic on binary64

    [_ease_in_out] and the two lines of [_update] that feed it use only
    [+], [-], [*], [/] and comparisons: here they are on the floats of
    the machine, to be evaluated as Python evaluates them. *)

Section Binary64.
Local Open Scope float_scope.

(** [float(z)], exact for the frame counts used here. *)
Definition float_of_int (z : Z) : float :=
  PrimFloat.of_uint63 (Uint63.of_Z z).

Definition np_clip_b64 (t lo hi : float) : float :=
  let m := if PrimFloat.ltb t lo then lo else t in
  if PrimFloat.ltb hi m then hi else m.

Definition ease_in_out_b64 (t : float) : float :=
  let t := np_clip_b64 t 0 1 in
  t * t * (3 - 2 * t).

(** [t = frame / max(1, self.BUILD_FRAMES - 1)] *)
Definition build_t_b64 (frame : Z) : float :=
  float_of_int frame / float_of_int (Z.max 1 (BUILD_FRAMES - 1)).

(** [k = self.K_FINAL * self._ease_in_out(t)] *)
Definition build_k_b64 (frame : Z) : float :=
  float_of_int K_FINAL * ease_in_out_b64 (build_t_b64 frame).

(** [l] is non-decreasing, by [<=] on floats. *)
Definition nondecreasing_b64 (l : list float) : bool :=
  forallb (fun p => PrimFloat.leb (fst p) (snd p)) (combine l (tl l)).

(** [num] evenly spaced samples of the unit interval. *)
Definition unit_samples_b64 (num : nat) : list float :=
  map (fun i => float_of_int (Z.of_nat i) / float_of_int (Z.of_nat (num - 1)))
      (seq 0 num).

End Binary64.

(** ** The curve and the easing on binary64

    [np.sin] and the power [**] are functions of the C library: on the
    finite floats they are parameters here ([libm_sin], [libm_pow]).
    IEEE 754 fixes what the sine answers outside them: NaN at an infinity
    and at NaN. *)

Section Binary64Curve.
Local Open Scope float_scope.






(** The progress [t] of the 100 build frames. *)
Definition build_progress_b64 : list float :=
  map (fun i => build_t_b64 (Z.of_nat i)) (seq 0 100).

(** [ease(t)] and [1 - ease(1 - t)] differ by at most [tol]. *)
Definition symmetric_within_b64 (tol t : float) : bool :=
  PrimFloat.leb
    (abs (ease_in_out_b64 t - (1 - ease_in_out_b64 (1 - t)))) tol.

(** Two adjacent floats near 0.9. *)
Definition below_b64 : float := 0x1.cccccccccccd8p-1.
Definition above_b64 : float := 0x1.cccccccccccd9p-1.

End Binary64Curve.

(** ** The animation object

    The attributes of [ValentineHeart] that its methods read or assign,
    and the part of the Matplotlib figure they draw on. *)

(** A [Line2D] of the plot: its data and opacity. *)
Record Line : Type := mkLine {
  xdata : list R;
  ydata : list (option R);
  line_alpha : R
}.

(** A figure text: its string and opacity. *)
Record Text : Type := mkText {
  text : string;
  text_alpha : R
}.

(** The face of the start button ([FancyBboxPatch]). *)
Record Patch : Type := mkPatch {
  facecolor : string;
  patch_alpha : R;
  linewidth : R
}.

(** The artists the figure holds in [fig.texts] and [fig.patches]. *)
Inductive artist : Type :=
  | Title | Formula | KDisplay | Message | ControlsHint | Credit
  | Subtitle | BtnGlow | BtnPatch | BtnLabel | Hint.

Definition artist_eq_dec (a b : artist) : {a = b} + {a <> b}.
Proof. decide equality. Defined.

(** [isinstance(element, FancyBboxPatch)] *)
Definition is_FancyBboxPatch (a : artist) : bool :=
  match a with
  | BtnGlow | BtnPatch => true
  | _ => false
  end.

(** [frame], [paused], [fps], [completed], [started], [splash_tick] and
    [hovering_btn] are the attributes [self._frame] ... of the source.
    [anim] is the interval in milliseconds of the timer of [self._anim]:
    [None] as long as [hasattr(self, '_anim') and
    self._anim.event_source] is false.  [k_display] is the number the
    readout ['k = {k:.2f}'] was formatted from.  [canvas] is the size of
    the figure in pixels, [draws] counts the calls of
    [fig.canvas.draw_idle()], and [closed] records [plt.close('all')]. *)
Record State : Type := mkState {
  frame : Z;
  paused : bool;
  fps : Z;
  completed : bool;
  started : bool;
  splash_tick : Z;
  hovering_btn : bool;
  anim : option Z;
  glow_outer : Line;
  glow_inner : Line;
  core_line : Line;
  k_display : R;
  message : Text;
  btn_glow_alpha : R;
  btn_patch : Patch;
  splash_elements : list artist;
  fig_patches : list artist;
  fig_texts : list artist;
  canvas : R * R;
  draws : nat;
  closed : bool
}.

(** Assignment to one attribute, the others kept. *)
Definition set_frame (v : Z) (s : State) : State :=
  mkState v (paused s) (fps s) (completed s) (started s) (splash_tick s)
    (hovering_btn s) (anim s) (glow_outer s) (glow_inner s)
    (core_line s) (k_display s) (message s) (btn_glow_alpha s)
    (btn_patch s) (splash_elements s) (fig_patches s) (fig_texts s)
    (canvas s) (draws s) (closed s).
Definition set_paused (v : bool) (s : State) : State :=
  mkState (frame s) v (fps s) (completed s) (started s) (splash_tick s)
    (hovering_btn s) (anim s) (glow_outer s) (glow_inner s)
    (core_line s) (k_display s) (message s) (btn_glow_alpha s)
    (btn_patch s) (splash_elements s) (fig_patches s) (fig_texts s)
    (canvas s) (draws s) (closed s).
Definition set_fps (v : Z) (s : State) : State :=
  mkState (frame s) (paused s) v (completed s) (started s)
    (splash_tick s) (hovering_btn s) (anim s) (glow_outer s)
    (glow_inner s) (core_line s) (k_display s) (message s)
    (btn_glow_alpha s) (btn_patch s) (splash_elements s) (fig_patches s)
    (fig_texts s) (canvas s) (draws s) (closed s).
Definition set_completed (v : bool) (s : State) : State :=
  mkState (frame s) (paused s) (fps s) v (started s) (splash_tick s)
    (hovering_btn s) (anim s) (glow_outer s) (glow_inner s)
    (core_line s) (k_display s) (message s) (btn_glow_alpha s)
    (btn_patch s) (splash_elements s) (fig_patches s) (fig_texts s)
    (canvas s) (draws s) (closed s).
Definition set_started (v : bool) (s : State) : State :=
  mkState (frame s) (paused s) (fps s) (completed s) v (splash_tick s)
    (hovering_btn s) (anim s) (glow_outer s) (glow_inner s)
    (core_line s) (k_display s) (message s) (btn_glow_alpha s)
    (btn_patch s) (splash_elements s) (fig_patches s) (fig_texts s)
    (canvas s) (draws s) (closed s).
Definition set_splash_tick (v : Z) (s : State) : State :=
  mkState (frame s) (paused s) (fps s) (completed s) (started s) v
    (hovering_btn s) (anim s) (glow_outer s) (glow_inner s)
    (core_line s) (k_display s) (message s) (btn_glow_alpha s)
    (btn_patch s) (splash_elements s) (fig_patches s) (fig_texts s)
    (canvas s) (draws s) (closed s).
Definition set_hovering_btn (v : bool) (s : State) : State :=
  mkState (frame s) (paused s) (fps s) (completed s) (started s)
    (splash_tick s) v (anim s) (glow_outer s) (glow_inner s)
    (core_line s) (k_display s) (message s) (btn_glow_alpha s)
    (btn_patch s) (splash_elements s) (fig_patches s) (fig_texts s)
    (canvas s) (draws s) (closed s).
Definition set_anim (v : option Z) (s : State) : State :=
  mkState (frame s) (paused s) (fps s) (completed s) (started s)
    (splash_tick s) (hovering_btn s) v (glow_outer s) (glow_inner s)
    (core_line s) (k_display s) (message s) (btn_glow_alpha s)
    (btn_patch s) (splash_elements s) (fig_patches s) (fig_texts s)
    (canvas s) (draws s) (closed s).
Definition set_glow_outer (v : Line) (s : State) : State :=
  mkState (frame s) (paused s) (fps s) (completed s) (started s)
    (splash_tick s) (hovering_btn s) (anim s) v (glow_inner s)
    (core_line s) (k_display s) (message s) (btn_glow_alpha s)
    (btn_patch s) (splash_elements s) (fig_patches s) (fig_texts s)
    (canvas s) (draws s) (closed s).
Definition set_glow_inner (v : Line) (s : State) : State :=
  mkState (frame s) (paused s) (fps s) (completed s) (started s)
    (splash_tick s) (hovering_btn s) (anim s) (glow_outer s) v
    (core_line s) (k_display s) (message s) (btn_glow_alpha s)
    (btn_patch s) (splash_elements s) (fig_patches s) (fig_texts s)
    (canvas s) (draws s) (closed s).
Definition set_core_line (v : Line) (s : State) : State :=
  mkState (frame s) (paused s) (fps s) (completed s) (started s)
    (splash_tick s) (hovering_btn s) (anim s) (glow_outer s)
    (glow_inner s) v (k_display s) (message s) (btn_glow_alpha s)
    (btn_patch s) (splash_elements s) (fig_patches s) (fig_texts s)
    (canvas s) (draws s) (closed s).
Definition set_k_display (v : R) (s : State) : State :=
  mkState (frame s) (paused s) (fps s) (completed s) (started s)
    (splash_tick s) (hovering_btn s) (anim s) (glow_outer s)
    (glow_inner s) (core_line s) v (message s) (btn_glow_alpha s)
    (btn_patch s) (splash_elements s) (fig_patches s) (fig_texts s)
    (canvas s) (draws s) (closed s).
Definition set_message (v : Text) (s : State) : State :=
  mkState (frame s) (paused s) (fps s) (completed s) (started s)
    (splash_tick s) (hovering_btn s) (anim s) (glow_outer s)
    (glow_inner s) (core_line s) (k_display s) v (btn_glow_alpha s)
    (btn_patch s) (splash_elements s) (fig_patches s) (fig_texts s)
    (canvas s) (draws s) (closed s).
Definition set_btn_glow_alpha (v : R) (s : State) : State :=
  mkState (frame s) (paused s) (fps s) (completed s) (started s)
    (splash_tick s) (hovering_btn s) (anim s) (glow_outer s)
    (glow_inner s) (core_line s) (k_display s) (message s) v
    (btn_patch s) (splash_elements s) (fig_patches s) (fig_texts s)
    (canvas s) (draws s) (closed s).
Definition set_btn_patch (v : Patch) (s : State) : State :=
  mkState (frame s) (paused s) (fps s) (completed s) (started s)
    (splash_tick s) (hovering_btn s) (anim s) (glow_outer s)
    (glow_inner s) (core_line s) (k_display s) (message s)
    (btn_glow_alpha s) v (splash_elements s) (fig_patches s)
    (fig_texts s) (canvas s) (draws s) (closed s).
Definition set_splash_elements (v : list artist) (s : State) : State :=
  mkState (frame s) (paused s) (fps s) (completed s) (started s)
    (splash_tick s) (hovering_btn s) (anim s) (glow_outer s)
    (glow_inner s) (core_line s) (k_display s) (message s)
    (btn_glow_alpha s) (btn_patch s) v (fig_patches s) (fig_texts s)
    (canvas s) (draws s) (closed s).
Definition set_fig_patches (v : list artist) (s : State) : State :=
  mkState (frame s) (paused s) (fps s) (completed s) (started s)
    (splash_tick s) (hovering_btn s) (anim s) (glow_outer s)
    (glow_inner s) (core_line s) (k_display s) (message s)
    (btn_glow_alpha s) (btn_patch s) (splash_elements s) v (fig_texts s)
    (canvas s) (draws s) (closed s).
Definition set_fig_texts (v : list artist) (s : State) : State :=
  mkState (frame s) (paused s) (fps s) (completed s) (started s)
    (splash_tick s) (hovering_btn s) (anim s) (glow_outer s)
    (glow_inner s) (core_line s) (k_display s) (message s)
    (btn_glow_alpha s) (btn_patch s) (splash_elements s) (fig_patches s)
    v (canvas s) (draws s) (closed s).
Definition set_canvas (v : R * R) (s : State) : State :=
  mkState (frame s) (paused s) (fps s) (completed s) (started s)
    (splash_tick s) (hovering_btn s) (anim s) (glow_outer s)
    (glow_inner s) (core_line s) (k_display s) (message s)
    (btn_glow_alpha s) (btn_patch s) (splash_elements s) (fig_patches s)
    (fig_texts s) v (draws s) (closed s).
Definition set_draws (v : nat) (s : State) : State :=
  mkState (frame s) (paused s) (fps s) (completed s) (started s)
    (splash_tick s) (hovering_btn s) (anim s) (glow_outer s)
    (glow_inner s) (core_line s) (k_display s) (message s)
    (btn_glow_alpha s) (btn_patch s) (splash_elements s) (fig_patches s)
    (fig_texts s) (canvas s) v (closed s).
Definition set_closed (v : bool) (s : State) : State :=
  mkState (frame s) (paused s) (fps s) (completed s) (started s)
    (splash_tick s) (hovering_btn s) (anim s) (glow_outer s)
    (glow_inner s) (core_line s) (k_display s) (message s)
    (btn_glow_alpha s) (btn_patch s) (splash_elements s) (fig_patches s)
    (fig_texts s) (canvas s) (draws s) v.

(** ** Construction

    [__init__]: the counters and flags, then [_create_plot_elements] and
    [_create_start_screen].  The size of the canvas in pixels comes from
    the backend. *)

Definition btn_face : string := "#cc1133".
Definition btn_hover : string := "#ff2255".
Definition completion_text : string := "Made with ♥ and Mathematics".
Definition paused_text : string := "⏸  Paused — press SPACE to continue".

Definition init (width height : R) : State :=
  {| frame := 0;
     paused := false;
     fps := INITIAL_FPS;
     completed := false;
     started := false;
     splash_tick := 0;
     hovering_btn := false;
     anim := None;
     glow_outer := mkLine [] [] 0.1;
     glow_inner := mkLine [] [] 0.25;
     core_line := mkLine [] [] 0.95;
     k_display := 0;
     message := mkText "" 0;
     btn_glow_alpha := 0.12;
     btn_patch := mkPatch btn_face 0.95 2;
     splash_elements := [Subtitle; BtnGlow; BtnPatch; BtnLabel; Hint];
     fig_patches := [BtnGlow; BtnPatch];
     fig_texts := [Title; Formula; KDisplay; Message; ControlsHint;
                   Credit; Subtitle; BtnLabel; Hint];
     canvas := (width, height);
     draws := O;
     closed := false |}.

(** [run]: [self._anim = FuncAnimation(..., interval=1000 //
    self.SPLASH_FPS, ...)]; the events below are dispatched by
    [plt.show()] after it. *)
Definition run (s : State) : State :=
  set_anim (Some (1000 / SPLASH_FPS)) s.

(** ** Methods *)

(** [self.fig.canvas.draw_idle()] *)
Definition draw_idle (s : State) : State := set_draws (S (draws s)) s.

(** [plt.close('all')] *)
Definition close_all (s : State) : State := set_closed true s.

(** [layer.set_data(x, y)] and [layer.set_alpha(a)] *)
Definition set_data (x : list R) (y : list (option R)) (l : Line) : Line :=
  mkLine x y (line_alpha l).
Definition set_alpha (a : R) (l : Line) : Line :=
  mkLine (xdata l) (ydata l) a.

(** [for layer in self._curve_layers: layer.set_data(x, y)] *)
Definition set_curve_layers (x : list R) (y : list (option R)) (s : State)
  : State :=
  let s := set_glow_outer (set_data x y (glow_outer s)) s in
  let s := set_glow_inner (set_data x y (glow_inner s)) s in
  set_core_line (set_data x y (core_line s)) s.

(** One round of the loop of [_remove_start_screen]. *)
Definition remove_element (s : State) (element : artist) : State :=
  if is_FancyBboxPatch element then
    if in_dec artist_eq_dec element (fig_patches s) then
      set_fig_patches (remove artist_eq_dec element (fig_patches s)) s
    else s
  else set_fig_texts (remove artist_eq_dec element (fig_texts s)) s.

Definition remove_start_screen (s : State) : State :=
  let s := fold_left remove_element (splash_elements s) s in
  set_splash_elements [] s.

(** A pointer event: the pixel coordinates, either of which may be
    [None]. *)
Record MouseEvent : Type := mkMouseEvent {
  ev_x : option R;
  ev_y : option R
}.

(** [self.fig.transFigure.inverted().transform((x, y))]: pixels to
    figure-relative coordinates. *)
Definition transFigure_inverted (s : State) (p : R * R) : R * R :=
  (fst p / fst (canvas s), snd p / snd (canvas s))%R.

(** [a <= b] on floats, as a boolean. *)
Definition Rleb (a b : R) : bool := if Rle_dec a b then true else false.

Definition is_over_button (s : State) (event : MouseEvent) : bool :=
  match ev_x event, ev_y event with
  | Some x, Some y =>
      let '(fx, fy) := transFigure_inverted s (x, y) in
      (Rleb (0.5 - 0.13) fx && Rleb fx (0.5 + 0.13)) &&
      (Rleb (0.46 - 0.045) fy && Rleb fy (0.46 + 0.045))
  | _, _ => false
  end.

Definition start_animation (s : State) : State :=
  let s := set_started true s in
  let s := remove_start_screen s in
  let s := match anim s with
           | Some _ => set_anim (Some (1000 / fps s)) s
           | None => s
           end in
  draw_idle s.

Definition update (s : State) : State :=
  if negb (started s) then
    let s := set_splash_tick (splash_tick s + 1) s in
    let pulse := (0.08 + 0.14 * sin (2 * PI * IZR (splash_tick s) / 30))%R in
    let s := set_btn_glow_alpha (Rmax 0 pulse) s in
    draw_idle s
  else if paused s then s
  else
    let frame0 := frame s in
    let '(k, amplitude, alpha_factor, s) :=
      if frame0 <? BUILD_FRAMES then
        let t := (IZR frame0 / IZR (Z.max 1 (BUILD_FRAMES - 1)))%R in
        let k := (IZR K_FINAL * ease_in_out t)%R in
        let amplitude := 0.9%R in
        let alpha_factor := (0.4 + 0.6 * t)%R in
        (k, amplitude, alpha_factor, set_completed false s)
      else
        let pulse_idx := frame0 - BUILD_FRAMES in
        let k := IZR K_FINAL in
        let breath := sin (2 * PI * IZR pulse_idx / 20) in
        let amplitude := (0.9 + 0.035 * breath)%R in
        let alpha_factor := 1%R in
        let s :=
          if negb (completed s) then
            let s := set_completed true s in
            set_message (mkText completion_text 0.7) s
          else s in
        (k, amplitude, alpha_factor, s) in
    let y := heart_curve x_samples k amplitude in
    let s := set_curve_layers x_samples y s in
    let s := set_core_line (set_alpha (0.95 * alpha_factor) (core_line s)) s in
    let s := set_glow_inner (set_alpha (0.25 * alpha_factor) (glow_inner s)) s in
    let s := set_glow_outer (set_alpha (0.10 * alpha_factor) (glow_outer s)) s in
    let s := set_k_display k s in
    let s := set_frame (frame s + 1) s in
    let s :=
      if frame s >=? BUILD_FRAMES + PULSE_FRAMES
      then set_frame BUILD_FRAMES s else s in
    draw_idle s.

Definition on_click (s : State) (event : MouseEvent) : State :=
  if negb (started s) then
    if is_over_button s event then start_animation s else s
  else s.

Definition on_motion (s : State) (event : MouseEvent) : State :=
  if negb (started s) then
    let over := is_over_button s event in
    if over && negb (hovering_btn s) then
      let s := set_hovering_btn true s in
      let s := set_btn_patch (mkPatch btn_hover 1.0 2.5) s in
      draw_idle s
    else if negb over && hovering_btn s then
      let s := set_hovering_btn false s in
      let s := set_btn_patch (mkPatch btn_face 0.95 2.0) s in
      draw_idle s
    else s
  else s.

(** [event.key in (a, b)] *)
Definition key_in (key : string) (keys : list string) : bool :=
  existsb (String.eqb key) keys.

Definition on_key_press (s : State) (key : string) : State :=
  if negb (started s) then
    if key_in key [" "; "enter"] then start_animation s
    else if key_in key ["q"; "escape"] then close_all s
    else s
  else if (key =? " ")%string then
    let s := set_paused (negb (paused s)) s in
    let s :=
      if paused s then set_message (mkText paused_text 0.6) s
      else if completed s then set_message (mkText completion_text 0.7) s
      else set_message (mkText "" 0) s in
    draw_idle s
  else if (key =? "r")%string then
    let s := set_frame 0 s in
    let s := set_completed false s in
    let s := set_paused false s in
    let s := set_message (mkText "" 0) s in
    let s := set_curve_layers [] [] s in
    let s := set_k_display 0 s in
    draw_idle s
  else if key_in key ["q"; "escape"] then close_all s
  else if (key =? "up")%string then
    let s := set_fps (Z.min 30 (fps s + 1)) s in
    match anim s with
    | Some _ => set_anim (Some (1000 / fps s)) s
    | None => s
    end
  else if (key =? "down")%string then
    let s := set_fps (Z.max 1 (fps s - 1)) s in
    match anim s with
    | Some _ => set_anim (Some (1000 / fps s)) s
    | None => s
    end
  else s.

(** ** The event loop *)

Inductive event : Type :=
  | Tick
  | Click (e : MouseEvent)
  | Motion (e : MouseEvent)
  | KeyPress (key : string).

Definition step (s : State) (e : event) : State :=
  match e with
  | Tick => update s
  | Click m => on_click s m
  | Motion m => on_motion s m
  | KeyPress key => on_key_press s key
  end.

(** The states the program reaches: [ValentineHeart().run()] on a canvas
    of any size, then any sequence of events. *)
Inductive reachable : State -> Prop :=
  | reach_run (width height : R) : reachable (run (init width height))
  | reach_step (s : State) (e : event) :
      reachable s -> reachable (step s e).

(** The phase of the docstring of [_update]: Splash before Start, then
    Building while [frame < BUILD_FRAMES], then Pulsing. *)
Inductive phase : Type := Splash | Building | Pulsing.

Definition phase_of (s : State) : phase :=
  if negb (started s) then Splash
  else if frame s <? BUILD_FRAMES then Building
  else Pulsing.

(** [n] timer ticks, and [n] presses of one key. *)
Definition ticks (n : nat) (s : State) : State := Nat.iter n update s.
Definition presses (key : string) (n : nat) (s : State) : State :=
  Nat.iter n (fun s => on_key_press s key) s.

(** ** Vocabulary of the properties *)

(** The tick from [s] takes the branch of [_update] that latches
    [_completed] and reveals the message: started, not paused, past the
    build frames, latch still open. *)
Definition reveals (s : State) : bool :=
  started s && negb (paused s) &&
  negb (frame s <? BUILD_FRAMES) && negb (completed s).

(** A started state, and one in the pulse window. *)
Definition started_state : State :=
  step (run (init 1000 900)) (KeyPress " ").
Definition pulsing_state : State := ticks 100 started_state.

(** The two speed keys assign [_fps] and the interval of the timer; a
    tick reads neither. *)
Definition set_speed (v : Z) (s : State) : State :=
  let s := set_fps v s in
  match anim s with
  | Some _ => set_anim (Some (1000 / fps s)) s
  | None => s
  end.

(** The attributes that [_remove_start_screen] leaves alone. *)
Definition same_attrs (s s' : State) : Prop :=
  frame s' = frame s /\ paused s' = paused s /\ fps s' = fps s /\
  completed s' = completed s /\ started s' = started s /\
  hovering_btn s' = hovering_btn s /\ anim s' = anim s /\
  message s' = message s /\ draws s' = draws s.

(** The counter is inside the build and pulse windows, the speed inside
    its bounds, the timer exists, and nothing has moved before Start. *)
Definition invariant (s : State) : Prop :=
  0 <= frame s < BUILD_FRAMES + PULSE_FRAMES /\
  1 <= fps s <= 30 /\
  anim s <> None /\
  (started s = false ->
   frame s = 0 /\ paused s = false /\ completed s = false).

(** A pointer in the middle of a 1000 by 900 canvas is over the button. *)
Definition over_centre : MouseEvent := mkMouseEvent (Some 500%R) (Some 414%R).
Definition no_position : MouseEvent := mkMouseEvent None (Some 414%R).
Definition hovered_state : State :=
  step (run (init 1000 900)) (Motion over_centre).

(** The bodies of the branches of the handlers, named: the Space branch
    and the [r] branch of [_on_key_press], and the enter and leave
    branches of [_on_motion]. *)
Definition toggle_pause (s : State) : State :=
  let s := set_paused (negb (paused s)) s in
  let s :=
    if paused s then set_message (mkText paused_text 0.6) s
    else if completed s then set_message (mkText completion_text 0.7) s
    else set_message (mkText "" 0) s in
  draw_idle s.

Definition restart (s : State) : State :=
  draw_idle
    (set_k_display 0
       (set_curve_layers [] []
          (set_message (mkText "" 0)
             (set_paused false (set_completed false (set_frame 0 s)))))).

Definition hover_on (s : State) : State :=
  draw_idle (set_btn_patch (mkPatch btn_hover 1.0 2.5)
               (set_hovering_btn true s)).

Definition hover_off (s : State) : State :=
  draw_idle (set_btn_patch (mkPatch btn_face 0.95 2.0)
               (set_hovering_btn false s)).

(** What the loop of [_remove_start_screen] leaves of [fig.patches] and
    of [fig.texts]. *)
Definition remaining_patches (l ps : list artist) : list artist :=
  fold_left (fun acc a =>
               if is_FancyBboxPatch a then remove artist_eq_dec a acc
               else acc) l ps.

Definition remaining_texts (l ts : list artist) : list artist :=
  fold_left (fun acc a =>
               if is_FancyBboxPatch a then acc
               else remove artist_eq_dec a acc) l ts.

(** The message shows the state: the pause notice while paused, the
    completion line once the build is complete, nothing otherwise. *)
Definition message_of (s : State) : Text :=
  if paused s then mkText paused_text 0.6
  else if completed s then mkText completion_text 0.7
  else mkText "" 0.

(** The face of the button for a value of [_hovering_btn]. *)
Definition face_of (hovering : bool) : Patch :=
  if hovering then mkPatch btn_hover 1.0 2.5 else mkPatch btn_face 0.95 2.

(** The keys [_on_key_press] knows. *)
Definition known_keys : list string :=
  [" "; "enter"; "q"; "escape"; "r"; "up"; "down"].

(** The three curve layers hold the same points, as many ordinates as
    abscissas, every ordinate finite, and the opacity of each layer is
    its base opacity times one factor of the fade-in. *)
Definition layers_consistent (s : State) : Prop :=
  xdata (glow_outer s) = xdata (core_line s) /\
  ydata (glow_outer s) = ydata (core_line s) /\
  xdata (glow_inner s) = xdata (core_line s) /\
  ydata (glow_inner s) = ydata (core_line s) /\
  length (ydata (core_line s)) = length (xdata (core_line s)) /\
  (xdata (core_line s) = [] \/ xdata (core_line s) = x_samples) /\
  Forall (fun y => y <> None) (ydata (core_line s)) /\
  exists factor : R,
    (0.4 <= factor <= 1 /\
     line_alpha (core_line s) = 0.95 * factor /\
     line_alpha (glow_inner s) = 0.25 * factor /\
     line_alpha (glow_outer s) = 0.10 * factor)%R.

(** [_remove_start_screen] with the errors of Python: [list.remove]
    drops the first occurrence and raises [ValueError] when there is
    none, and so does [element.remove()] for a text that [fig.texts] does
    not hold.  [None] is the exception. *)
Fixpoint remove_first (a : artist) (l : list artist) : option (list artist) :=
  match l with
  | [] => None
  | b :: l' =>
      if artist_eq_dec a b then Some l'
      else option_map (cons b) (remove_first a l')
  end.

Definition remove_element_checked (s : State) (element : artist)
  : option State :=
  if is_FancyBboxPatch element then
    if in_dec artist_eq_dec element (fig_patches s) then
      option_map (fun l => set_fig_patches l s)
        (remove_first element (fig_patches s))
    else Some s
  else
    option_map (fun l => set_fig_texts l s)
      (remove_first element (fig_texts s)).

Definition remove_start_screen_checked (s : State) : option State :=
  option_map (set_splash_elements [])
    (fold_left (fun acc element =>
                  match acc with
                  | Some s' => remove_element_checked s' element
                  | None => None
                  end) (splash_elements s) (Some s)).

(** A figure as the constructor builds it: no artist twice in a list,
    and every splash text among the texts of the figure. *)
Definition figure_well_formed (s : State) : Prop :=
  NoDup (splash_elements s) /\ NoDup (fig_patches s) /\
  NoDup (fig_texts s) /\
  forall a, In a (splash_elements s) -> is_FancyBboxPatch a = false ->
            In a (fig_texts s).

(** One step of the ramp, checked on the floats: [k] of a frame is at
    least 0, at most the [k] of the next frame, which is at most 50, and
    the progress [t] of both frames is inside the unit interval. *)
Definition ramp_step_b64 (f : Z) : bool :=
  PrimFloat.leb 0 (build_k_b64 f) &&
  PrimFloat.leb (build_k_b64 f) (build_k_b64 (f + 1)) &&
  PrimFloat.leb (build_k_b64 (f + 1)) 50 &&
  PrimFloat.leb 0 (build_t_b64 f) &&
  PrimFloat.leb (build_t_b64 (f + 1)) 1.

(** Unfolding of the attribute assignments and accessors, leaving the
    arithmetic and the curve untouched. *)
Ltac state_cbv :=
  cbv beta iota zeta delta
    [set_frame set_paused set_fps set_completed set_started set_splash_tick
     set_hovering_btn set_anim set_glow_outer set_glow_inner set_core_line
     set_k_display set_message set_btn_glow_alpha set_btn_patch
     set_splash_elements set_fig_patches set_fig_texts set_canvas set_draws
     set_closed
     frame paused fps completed started splash_tick hovering_btn anim
     glow_outer glow_inner core_line k_display message btn_glow_alpha
     btn_patch splash_elements fig_patches fig_texts canvas draws closed
     draw_idle close_all set_curve_layers set_data set_alpha
     xdata ydata line_alpha negb andb].

Ltac state_cbv_in H :=
  cbv beta iota zeta delta
    [frame paused fps completed started splash_tick hovering_btn anim
     glow_outer glow_inner core_line k_display message btn_glow_alpha
     btn_patch splash_elements fig_patches fig_texts canvas draws closed]
    in H.

(** Evaluation of the comparisons of [event.key] with literal keys. *)
Ltac key_eval :=
  repeat match goal with
  | |- context [String.eqb ?a ?b] =>
      let v := eval vm_compute in (String.eqb a b) in
      change (String.eqb a b) with v
  | |- context [key_in ?a ?b] =>
      let v := eval vm_compute in (key_in a b) in
      change (key_in a b) with v
  end.

(** The same, with the branches of the handlers unfolded first. *)
Ltac branch_cbv :=
  unfold toggle_pause, restart, hover_on, hover_off, set_speed,
    message_of, face_of, run, init;
  state_cbv.

(** * Properties *)

(** ** The easing function *)

Section EaseFacts.
Local Open Scope R_scope.

Lemma np_clip_below (t lo hi : R) : lo <= hi -> t <= lo -> np_clip t lo hi = lo.
Proof.
  intros Hb Ht. unfold np_clip.
  rewrite Rmax_right by exact Ht. now rewrite Rmin_left.
Qed.

Lemma np_clip_above (t lo hi : R) : lo <= hi -> hi <= t -> np_clip t lo hi = hi.
Proof.
  intros Hb Ht. unfold np_clip.
  rewrite Rmax_left by lra. now rewrite Rmin_right.
Qed.

Lemma np_clip_inside (t lo hi : R) : lo <= t <= hi -> np_clip t lo hi = t.
Proof.
  intros [Hl Hh]. unfold np_clip.
  rewrite Rmax_left by exact Hl. now rewrite Rmin_left.
Qed.

Lemma np_clip_range (t lo hi : R) : lo <= hi -> lo <= np_clip t lo hi <= hi.
Proof.
  intros Hb. unfold np_clip, Rmin, Rmax.
  destruct (Rle_dec t lo); destruct (Rle_dec _ hi); lra.
Qed.

Lemma ease_in_out_unit (t : R) :
  0 <= t <= 1 -> ease_in_out t = 3 * t ^ 2 - 2 * t ^ 3.
Proof.
  intros Ht. unfold ease_in_out. rewrite np_clip_inside by exact Ht. ring.
Qed.

Lemma cubic_monotone (t u : R) :
  0 <= t -> t <= u -> u <= 1 ->
  3 * t ^ 2 - 2 * t ^ 3 <= 3 * u ^ 2 - 2 * u ^ 3.
Proof.
  intros H0 Htu H1.
  assert (Hfac : 3 * u ^ 2 - 2 * u ^ 3 - (3 * t ^ 2 - 2 * t ^ 3)
                 = (u - t) * (3 * (u + t) - 2 * (u * u + u * t + t * t)))
    by ring.
  assert (Hu : u * u <= u) by nra.
  assert (Ht : t * t <= t) by nra.
  assert (Hut : 2 * (u * t) <= u + t) by nra.
  assert (Hpos : 0 <= (u - t) * (3 * (u + t) - 2 * (u * u + u * t + t * t))).
  { apply Rmult_le_pos; lra. }
  lra.
Qed.

(** The easing is non-decreasing on the whole line, not only on the unit
    interval: the clamp is monotone too. *)
Lemma ease_in_out_monotone (t u : R) :
  t <= u -> ease_in_out t <= ease_in_out u.
Proof.
  intros Htu.
  assert (Hc : np_clip t 0 1 <= np_clip u 0 1).
  { unfold np_clip. apply Rle_min_compat_r. now apply Rle_max_compat_r. }
  pose proof (np_clip_range t 0 1 ltac:(lra)) as [Ht0 Ht1].
  pose proof (np_clip_range u 0 1 ltac:(lra)) as [Hu0 Hu1].
  pose proof (cubic_monotone _ _ Ht0 Hc Hu1) as Hm.
  unfold ease_in_out. lra.
Qed.

(** The same values on binary64, and the 20 evenly spaced samples of the
    unit interval in non-decreasing order. *)
Lemma ease_in_out_b64_samples :
  ease_in_out_b64 0 = 0%float /\
  ease_in_out_b64 1 = 1%float /\
  ease_in_out_b64 0.5 = 0.5%float /\
  nondecreasing_b64 (map ease_in_out_b64 (unit_samples_b64 20)) = true.
Proof. vm_compute. repeat split. Qed.

(** C9, as the claim states it, fails on the floats of the program:
    between two adjacent floats of the unit interval the easing
    decreases, and at [t = 1/99], the progress of the second build
    frame, [ease(t)] is not [1 - ease(1 - t)]. *)
Lemma ease_in_out_b64_not_monotone :
  (PrimFloat.leb 0 below_b64 = true /\
   PrimFloat.ltb below_b64 above_b64 = true /\
   PrimFloat.leb above_b64 1 = true /\
   PrimFloat.ltb (ease_in_out_b64 above_b64) (ease_in_out_b64 below_b64)
   = true) /\
  (PrimFloat.leb 0 (build_t_b64 1) = true /\
   PrimFloat.leb (build_t_b64 1) 1 = true /\
   PrimFloat.eqb (ease_in_out_b64 (build_t_b64 1))
     (1 - ease_in_out_b64 (1 - build_t_b64 1))%float = false).
Proof. vm_compute. repeat split. Qed.

(** What holds of the easing on the floats: it is non-decreasing over the
    100 build frames, and symmetric there to within [2^-52]. *)
Lemma ease_in_out_b64_build :
  nondecreasing_b64 (map ease_in_out_b64 build_progress_b64) = true /\
  forallb (symmetric_within_b64 0x1p-52) build_progress_b64 = true.
Proof. vm_compute. split; reflexivity. Qed.

(** C9, amended. [_ease_in_out] clamps its argument to the unit interval
    (below 0 it answers the value at 0, above 1 the value at 1) and on
    the interval it is [3t^2 - 2t^3]; its values at 0, 1 and 0.5 are 0, 1
    and 0.5, on the reals and exactly so on binary64.  In exact real
    arithmetic it is non-decreasing on the interval and symmetric about
    0.5.  As the program computes it, on binary64, it is non-decreasing
    on 20 evenly spaced samples of the interval and on the progress of
    the 100 build frames, and symmetric on those frames to within
    [2^-52]. *)
Theorem ease_in_out_contract (t u : R) :
  ease_in_out t = 3 * (np_clip t 0 1) ^ 2 - 2 * (np_clip t 0 1) ^ 3 /\
  (t <= 0 -> np_clip t 0 1 = 0) /\
  (1 <= t -> np_clip t 0 1 = 1) /\
  (0 <= t <= 1 -> np_clip t 0 1 = t) /\
  ease_in_out 0 = 0 /\
  ease_in_out 1 = 1 /\
  ease_in_out 0.5 = 0.5 /\
  (0 <= t -> t <= u -> u <= 1 -> ease_in_out t <= ease_in_out u) /\
  (0 <= t <= 1 -> ease_in_out t = 1 - ease_in_out (1 - t)) /\
  (ease_in_out_b64 0 = 0 /\ ease_in_out_b64 1 = 1 /\
   ease_in_out_b64 0.5 = 0.5)%float /\
  nondecreasing_b64 (map ease_in_out_b64 (unit_samples_b64 20)) = true /\
  nondecreasing_b64 (map ease_in_out_b64 build_progress_b64) = true /\
  forallb (symmetric_within_b64 0x1p-52) build_progress_b64 = true.
Proof.
  split; [| split; [| split; [| split; [| split; [| split; [| split;
    [| split; [| split; [| split; [| split]]]]]]]]]].
  - unfold ease_in_out. ring.
  - intros Ht. apply np_clip_below; lra.
  - intros Ht. apply np_clip_above; lra.
  - intros Ht. now apply np_clip_inside.
  - rewrite ease_in_out_unit by lra. ring.
  - rewrite ease_in_out_unit by lra. ring.
  - rewrite ease_in_out_unit by lra. lra.
  - intros _ Htu _. now apply ease_in_out_monotone.
  - intros Ht. rewrite !ease_in_out_unit by lra. ring.
  - destruct ease_in_out_b64_samples as (H0 & H1 & Hhalf & _).
    now repeat split.
  - now destruct ease_in_out_b64_samples as (_ & _ & _ & Hs).
  - exact ease_in_out_b64_build.
Qed.

Lemma ease_in_out_contract_witness :
  ease_in_out 0.25 <= ease_in_out 0.75 /\
  ease_in_out 0.25 = 1 - ease_in_out (1 - 0.25).
Proof.
  destruct (ease_in_out_contract 0.25 0.75)
    as (_ & _ & _ & _ & _ & _ & _ & Hmono & Hsym & _).
  split; [apply Hmono | apply Hsym]; lra.
Defined.

End EaseFacts.

(** ** The curve evaluator *)

Section CurveFacts.
Local Open Scope R_scope.

(** [|x| ** (2/3)] is finite for every real [x]: the non-negative number
    whose cube is [x^2]. *)
Lemma np_power_abs_two_thirds (x : R) :
  exists b, np_power (Rabs x) (2 / 3) = Some b /\ 0 <= b /\ b ^ 3 = x ^ 2.
Proof.
  unfold np_power.
  destruct (Rlt_dec (Rabs x) 0) as [Hneg | _].
  { pose proof (Rabs_pos x). lra. }
  destruct (Req_dec_T (Rabs x) 0) as [Hz | Hnz].
  - destruct (Rlt_dec (2 / 3) 0) as [Hlt | _]; [lra |].
    destruct (Req_dec_T (2 / 3) 0) as [He | _]; [lra |].
    exists 0. repeat split; [lra |].
    destruct (Req_dec x 0) as [-> | Hx]; [ring |].
    now apply Rabs_no_R0 in Hx.
  - assert (Hpos : 0 < Rabs x) by (pose proof (Rabs_pos x); lra).
    exists (Rpower (Rabs x) (2 / 3)). repeat split.
    + left. apply exp_pos.
    + rewrite <- (Rpower_pow 3) by apply exp_pos.
      rewrite Rpower_mult.
      replace (2 / 3 * INR 3) with (INR 2) by (simpl; field).
      rewrite Rpower_pow by exact Hpos.
      now rewrite pow2_abs.
Qed.

(** The clamped radicand is never negative, so [np.sqrt] is finite. *)
Lemma np_sqrt_clamped (v : R) : np_sqrt (Rmax 0 v) = Some (sqrt (Rmax 0 v)).
Proof.
  unfold np_sqrt. destruct (Rlt_dec (Rmax 0 v) 0) as [Hneg | _].
  - pose proof (Rmax_l 0 v). lra.
  - reflexivity.
Qed.

Lemma heart_point_finite (k amplitude x : R) :
  exists b, 0 <= b /\ b ^ 3 = x ^ 2 /\
    heart_point k amplitude x
    = Some (b + amplitude * sin (k * x) * sqrt (Rmax 0 (3 - x ^ 2))).
Proof.
  destruct (np_power_abs_two_thirds x) as (b & Hb & Hb0 & Hb3).
  exists b. repeat split; try assumption.
  unfold heart_point. now rewrite Hb, np_sqrt_clamped.
Qed.

(** Inside the domain the clamp is the identity. *)
Lemma radicand_in_domain (x : R) :
  - sqrt 3 <= x <= sqrt 3 -> Rmax 0 (3 - x ^ 2) = 3 - x ^ 2.
Proof.
  intros [Hl Hh].
  assert (H3 : sqrt 3 * sqrt 3 = 3) by (apply sqrt_sqrt; lra).
  apply Rmax_right. nra.
Qed.

(** Outside the domain the clamp is what keeps the sample finite. *)
Lemma heart_point_unclamped_nan (k amplitude : R) :
  heart_point_unclamped k amplitude 2 = None /\
  heart_point k amplitude 2 <> None.
Proof.
  split.
  - unfold heart_point_unclamped, np_sqrt.
    destruct (np_power (Rabs 2) (2 / 3)); [| reflexivity].
    destruct (Rlt_dec (3 - 2 ^ 2) 0) as [_ | Hge]; [reflexivity | lra].
  - destruct (heart_point_finite k amplitude 2) as (b & _ & _ & ->).
    discriminate.
Qed.

(** Every sample of [self.x] lies in the domain of the curve. *)
Lemma linspace_range (a b : R) (n : nat) :
  a <= b -> Forall (fun x => a <= x <= b) (linspace a b n).
Proof.
  intros Hab. unfold linspace. apply Forall_forall. intros x Hx.
  apply in_map_iff in Hx. destruct Hx as (i & <- & Hi).
  apply in_seq in Hi. destruct Hi as [_ Hi]. simpl in Hi.
  destruct (Nat.eq_dec n 1) as [-> | Hn1].
  { assert (i = 0%nat) as -> by lia. simpl. lra. }
  assert (Hpos : 0 < INR (n - 1)) by (apply lt_0_INR; lia).
  assert (Hi0 : 0 <= INR i) by apply pos_INR.
  assert (Hi1 : INR i <= INR (n - 1)) by (apply le_INR; lia).
  assert (Hq0 : 0 <= INR i / INR (n - 1)).
  { apply Rmult_le_pos; [exact Hi0 |]. left. now apply Rinv_0_lt_compat. }
  assert (Hq1 : INR i / INR (n - 1) <= 1).
  { apply (Rmult_le_reg_r (INR (n - 1))); [exact Hpos |].
    unfold Rdiv. rewrite Rmult_assoc, Rinv_l by lra. lra. }
  replace (INR i * ((b - a) / INR (n - 1)))
    with ((b - a) * (INR i / INR (n - 1))) by (field; lra).
  nra.
Qed.

Lemma x_samples_domain :
  length x_samples = NUM_POINTS /\
  Forall (fun x => - sqrt 3 <= x <= sqrt 3) x_samples.
Proof.
  split.
  - unfold x_samples, linspace. now rewrite length_map, length_seq.
  - apply linspace_range. pose proof (sqrt_pos 3). lra.
Qed.





End CurveFacts.

(** ** The state machine *)

Lemma same_attrs_refl (s : State) : same_attrs s s.
Proof. unfold same_attrs. tauto. Qed.

Lemma same_attrs_trans (s1 s2 s3 : State) :
  same_attrs s1 s2 -> same_attrs s2 s3 -> same_attrs s1 s3.
Proof.
  unfold same_attrs. intros H12 H23.
  decompose [and] H12. decompose [and] H23.
  repeat split; congruence.
Qed.

Lemma remove_element_attrs (s : State) (a : artist) :
  same_attrs s (remove_element s a).
Proof.
  unfold remove_element.
  destruct (is_FancyBboxPatch a); [destruct (in_dec _ _ _) |];
    apply same_attrs_refl || (unfold same_attrs; repeat split).
Qed.

Lemma remove_start_screen_attrs (s : State) :
  same_attrs s (remove_start_screen s) /\
  splash_elements (remove_start_screen s) = [].
Proof.
  split; [| reflexivity].
  unfold remove_start_screen.
  apply same_attrs_trans with (fold_left remove_element (splash_elements s) s).
  - generalize (splash_elements s) as l. intros l. revert s.
    induction l as [| a l IH]; intros s; [apply same_attrs_refl |].
    cbn [fold_left].
    eapply same_attrs_trans; [apply remove_element_attrs | apply IH].
  - unfold same_attrs. repeat split.
Qed.

Lemma start_animation_attrs (s : State) :
  started (start_animation s) = true /\
  frame (start_animation s) = frame s /\
  paused (start_animation s) = paused s /\
  fps (start_animation s) = fps s /\
  completed (start_animation s) = completed s /\
  hovering_btn (start_animation s) = hovering_btn s /\
  anim (start_animation s)
  = match anim s with Some _ => Some (1000 / fps s) | None => None end.
Proof.
  unfold start_animation.
  destruct (remove_start_screen_attrs (set_started true s))
    as ((Hf & Hp & Hfps & Hc & Hst & Hh & Ha & _ & _) & _).
  set (r := remove_start_screen (set_started true s)) in *.
  change (frame (set_started true s)) with (frame s) in Hf.
  change (paused (set_started true s)) with (paused s) in Hp.
  change (fps (set_started true s)) with (fps s) in Hfps.
  change (completed (set_started true s)) with (completed s) in Hc.
  change (started (set_started true s)) with true in Hst.
  change (hovering_btn (set_started true s)) with (hovering_btn s) in Hh.
  change (anim (set_started true s)) with (anim s) in Ha.
  destruct (anim r) as [i |] eqn:Har; rewrite <- Ha;
    cbv zeta; state_cbv; destruct r; state_cbv_in Hf; state_cbv_in Hp;
    state_cbv_in Hfps; state_cbv_in Hc; state_cbv_in Hst; state_cbv_in Hh;
    state_cbv_in Har; subst; repeat split; reflexivity.
Qed.

(** *** One tick *)

Lemma update_splash (s : State) :
  started s = false ->
  frame (update s) = frame s /\ paused (update s) = paused s /\
  fps (update s) = fps s /\ completed (update s) = completed s /\
  started (update s) = false /\ anim (update s) = anim s /\
  hovering_btn (update s) = hovering_btn s /\
  splash_tick (update s) = splash_tick s + 1.
Proof.
  destruct s; state_cbv; intros ->. unfold update; state_cbv.
  repeat split.
Qed.

Lemma update_paused (s : State) :
  started s = true -> paused s = true -> update s = s.
Proof.
  destruct s; state_cbv; intros -> ->. reflexivity.
Qed.

(** A tick of the running animation: the counter, the flags it keeps and
    the latch. *)
Lemma update_running (s : State) :
  started s = true -> paused s = false ->
  frame (update s)
  = (if frame s + 1 >=? BUILD_FRAMES + PULSE_FRAMES
     then BUILD_FRAMES else frame s + 1) /\
  started (update s) = true /\ paused (update s) = false /\
  fps (update s) = fps s /\ anim (update s) = anim s /\
  completed (update s) = negb (frame s <? BUILD_FRAMES) /\
  message (update s)
  = (if negb (frame s <? BUILD_FRAMES) && negb (completed s)
     then mkText completion_text 0.7 else message s).
Proof.
  destruct s; state_cbv; intros -> ->. unfold update; state_cbv.
  destruct (_ <? BUILD_FRAMES); [| destruct completed0]; state_cbv;
    destruct (_ >=? _); repeat split.
Qed.

(** What a Building tick draws. *)
Lemma update_building (s : State) :
  started s = true -> paused s = false -> frame s < BUILD_FRAMES ->
  let t := (IZR (frame s) / IZR (BUILD_FRAMES - 1))%R in
  let k := (IZR K_FINAL * ease_in_out t)%R in
  let y := heart_curve x_samples k 0.9 in
  k_display (update s) = k /\
  glow_outer (update s) = mkLine x_samples y (0.10 * (0.4 + 0.6 * t)) /\
  glow_inner (update s) = mkLine x_samples y (0.25 * (0.4 + 0.6 * t)) /\
  core_line (update s) = mkLine x_samples y (0.95 * (0.4 + 0.6 * t)).
Proof.
  destruct s; state_cbv; intros -> -> Hlt. unfold update; state_cbv.
  apply Z.ltb_lt in Hlt. rewrite Hlt. state_cbv.
  destruct (_ >=? _); repeat split.
Qed.

(** What a Pulsing tick draws. *)
Lemma update_pulsing (s : State) :
  started s = true -> paused s = false -> BUILD_FRAMES <= frame s ->
  let breath := sin (2 * PI * IZR (frame s - BUILD_FRAMES) / 20) in
  let y := heart_curve x_samples (IZR K_FINAL) (0.9 + 0.035 * breath) in
  k_display (update s) = IZR K_FINAL /\
  glow_outer (update s) = mkLine x_samples y (0.10 * 1) /\
  glow_inner (update s) = mkLine x_samples y (0.25 * 1) /\
  core_line (update s) = mkLine x_samples y (0.95 * 1).
Proof.
  destruct s; state_cbv; intros -> -> Hge. unfold update; state_cbv.
  apply Z.ltb_ge in Hge. rewrite Hge.
  destruct completed0; state_cbv; destruct (_ >=? _); repeat split.
Qed.

Lemma update_started (s : State) : started (update s) = started s.
Proof.
  destruct (started s) eqn:Hs.
  - destruct (paused s) eqn:Hp.
    + now rewrite update_paused.
    + now destruct (update_running s Hs Hp) as (_ & -> & _).
  - now destruct (update_splash s Hs) as (_ & _ & _ & _ & -> & _).
Qed.

Lemma update_fps_anim (s : State) :
  fps (update s) = fps s /\ anim (update s) = anim s.
Proof.
  destruct (started s) eqn:Hs.
  - destruct (paused s) eqn:Hp.
    + now rewrite update_paused.
    + destruct (update_running s Hs Hp) as (_ & _ & _ & -> & -> & _).
      now split.
  - destruct (update_splash s Hs) as (_ & _ & -> & _ & _ & -> & _).
    now split.
Qed.

(** The counter after a tick, whatever the state. *)
Lemma update_frame_bounds (s : State) :
  0 <= frame s < BUILD_FRAMES + PULSE_FRAMES ->
  0 <= frame (update s) < BUILD_FRAMES + PULSE_FRAMES.
Proof.
  intros Hb. unfold BUILD_FRAMES, PULSE_FRAMES in *.
  destruct (started s) eqn:Hs.
  - destruct (paused s) eqn:Hp.
    + now rewrite update_paused.
    + destruct (update_running s Hs Hp) as (-> & _).
      unfold BUILD_FRAMES, PULSE_FRAMES.
      destruct (Z.geb_spec (frame s + 1) (100 + 60)); lia.
  - now destruct (update_splash s Hs) as (-> & _).
Qed.

Lemma update_frame_pulsing (s : State) :
  BUILD_FRAMES <= frame s < BUILD_FRAMES + PULSE_FRAMES ->
  BUILD_FRAMES <= frame (update s) < BUILD_FRAMES + PULSE_FRAMES.
Proof.
  intros Hb. unfold BUILD_FRAMES, PULSE_FRAMES in *.
  destruct (started s) eqn:Hs.
  - destruct (paused s) eqn:Hp.
    + now rewrite update_paused.
    + destruct (update_running s Hs Hp) as (-> & _).
      unfold BUILD_FRAMES, PULSE_FRAMES.
      destruct (Z.geb_spec (frame s + 1) (100 + 60)); lia.
  - now destruct (update_splash s Hs) as (-> & _).
Qed.

Lemma ticks_S (n : nat) (s : State) : ticks (S n) s = update (ticks n s).
Proof. reflexivity. Qed.

Lemma ticks_frame_pulsing (n : nat) (s : State) :
  BUILD_FRAMES <= frame s < BUILD_FRAMES + PULSE_FRAMES ->
  BUILD_FRAMES <= frame (ticks n s) < BUILD_FRAMES + PULSE_FRAMES.
Proof.
  intros Hb. induction n as [| n IH]; [exact Hb |].
  rewrite ticks_S. now apply update_frame_pulsing.
Qed.

Lemma ticks_started_paused (n : nat) (s : State) :
  started s = true -> paused s = false ->
  started (ticks n s) = true /\ paused (ticks n s) = false.
Proof.
  intros Hs Hp. induction n as [| n [IHs IHp]]; [now split |].
  rewrite ticks_S.
  now destruct (update_running _ IHs IHp) as (_ & -> & -> & _).
Qed.

(** *** Keys *)

Lemma key_before_start (s : State) (key : string) :
  started s = false ->
  on_key_press s key
  = (if key_in key [" "; "enter"] then start_animation s
     else if key_in key ["q"; "escape"] then close_all s
     else s).
Proof. intros Hs. unfold on_key_press. now rewrite Hs. Qed.

Lemma key_space (s : State) :
  started s = true ->
  paused (on_key_press s " ") = negb (paused s) /\
  frame (on_key_press s " ") = frame s /\
  completed (on_key_press s " ") = completed s /\
  started (on_key_press s " ") = true /\
  fps (on_key_press s " ") = fps s /\
  anim (on_key_press s " ") = anim s.
Proof.
  destruct s; state_cbv; intros ->. unfold on_key_press; state_cbv.
  key_eval. destruct paused0; state_cbv; [destruct completed0 |];
    repeat split.
Qed.

Lemma key_enter_running (s : State) :
  started s = true -> on_key_press s "enter" = s.
Proof.
  destruct s; state_cbv; intros ->. unfold on_key_press; state_cbv.
  key_eval. reflexivity.
Qed.

Lemma key_restart (s : State) :
  started s = true ->
  on_key_press s "r"
  = draw_idle
      (set_k_display 0
         (set_curve_layers [] []
            (set_message (mkText "" 0)
               (set_paused false (set_completed false (set_frame 0 s)))))).
Proof.
  intros Hs. unfold on_key_press. rewrite Hs. cbn [negb]. key_eval.
  reflexivity.
Qed.

Lemma key_up (s : State) :
  started s = true ->
  fps (on_key_press s "up") = Z.min 30 (fps s + 1) /\
  anim (on_key_press s "up")
  = match anim s with
    | Some _ => Some (1000 / Z.min 30 (fps s + 1))
    | None => None
    end /\
  started (on_key_press s "up") = true /\
  frame (on_key_press s "up") = frame s.
Proof.
  destruct s; state_cbv; intros ->. unfold on_key_press; state_cbv.
  key_eval. destruct anim0; repeat split.
Qed.

Lemma key_down (s : State) :
  started s = true ->
  fps (on_key_press s "down") = Z.max 1 (fps s - 1) /\
  anim (on_key_press s "down")
  = match anim s with
    | Some _ => Some (1000 / Z.max 1 (fps s - 1))
    | None => None
    end /\
  started (on_key_press s "down") = true /\
  frame (on_key_press s "down") = frame s.
Proof.
  destruct s; state_cbv; intros ->. unfold on_key_press; state_cbv.
  key_eval. destruct anim0; repeat split.
Qed.

(** *** What every event preserves *)

Lemma invariant_run (width height : R) : invariant (run (init width height)).
Proof.
  unfold invariant, run, init, BUILD_FRAMES, PULSE_FRAMES, INITIAL_FPS.
  state_cbv. repeat split; try lia; discriminate.
Qed.

Lemma invariant_start_animation (s : State) :
  invariant s -> invariant (start_animation s).
Proof.
  intros (Hf & Hfps & Ha & _). unfold invariant.
  destruct (start_animation_attrs s) as (Hs' & -> & _ & -> & _ & _ & ->).
  rewrite Hs'. repeat split; try lia; try discriminate.
  destruct (anim s); [discriminate | contradiction].
Qed.

Lemma invariant_update (s : State) : invariant s -> invariant (update s).
Proof.
  intros (Hf & Hfps & Ha & Hsplash).
  destruct (update_fps_anim s) as [Hfps' Ha'].
  pose proof (update_frame_bounds s Hf) as Hf'.
  unfold invariant. rewrite Hfps', Ha', update_started.
  split; [exact Hf' |]. split; [exact Hfps |]. split; [exact Ha |].
  intros Hs. destruct (Hsplash Hs) as (H0 & Hp & Hc).
  destruct (update_splash s Hs) as (-> & -> & _ & -> & _). now repeat split.
Qed.

Lemma invariant_on_click (s : State) (e : MouseEvent) :
  invariant s -> invariant (on_click s e).
Proof.
  intros Hinv. unfold on_click.
  destruct (negb (started s)); [| exact Hinv].
  destruct (is_over_button s e); [| exact Hinv].
  now apply invariant_start_animation.
Qed.

Lemma invariant_on_motion (s : State) (e : MouseEvent) :
  invariant s -> invariant (on_motion s e).
Proof.
  intros Hinv. unfold on_motion.
  destruct (negb (started s)); [| exact Hinv].
  destruct (is_over_button s e && negb (hovering_btn s));
    [exact Hinv |].
  destruct (negb (is_over_button s e) && hovering_btn s); exact Hinv.
Qed.

Lemma invariant_on_key_press (s : State) (key : string) :
  invariant s -> invariant (on_key_press s key).
Proof.
  intros Hinv. destruct (started s) eqn:Hs.
  - pose proof Hinv as (Hf & Hfps & Ha & _).
    unfold on_key_press. rewrite Hs. cbn [negb].
    destruct (key =? " ")%string.
    { unfold invariant, BUILD_FRAMES, PULSE_FRAMES in *.
      destruct s; state_cbv; state_cbv_in Hs; subst.
      destruct paused0; state_cbv; [destruct completed0 |];
        state_cbv_in Hf; state_cbv_in Hfps; state_cbv_in Ha;
        repeat split; try lia; try assumption; discriminate. }
    destruct (key =? "r")%string.
    { unfold invariant, BUILD_FRAMES, PULSE_FRAMES in *.
      destruct s; state_cbv; state_cbv_in Hs; subst.
      state_cbv_in Hfps; state_cbv_in Ha.
      repeat split; try lia; try assumption; discriminate. }
    destruct (key_in key ["q"; "escape"]); [exact Hinv |].
    destruct (key =? "up")%string.
    { unfold invariant, BUILD_FRAMES, PULSE_FRAMES in *.
      destruct s; state_cbv; state_cbv_in Hs; subst.
      state_cbv_in Hf; state_cbv_in Hfps; state_cbv_in Ha.
      destruct anim0; [| contradiction]. state_cbv.
      repeat split; try lia; discriminate. }
    destruct (key =? "down")%string; [| exact Hinv].
    unfold invariant, BUILD_FRAMES, PULSE_FRAMES in *.
    destruct s; state_cbv; state_cbv_in Hs; subst.
    state_cbv_in Hf; state_cbv_in Hfps; state_cbv_in Ha.
    destruct anim0; [| contradiction]. state_cbv.
    repeat split; try lia; discriminate.
  - rewrite (key_before_start s key Hs).
    destruct (key_in key [" "; "enter"]);
      [now apply invariant_start_animation |].
    destruct (key_in key ["q"; "escape"]); exact Hinv.
Qed.

Lemma reachable_invariant (s : State) : reachable s -> invariant s.
Proof.
  induction 1 as [width height | s e _ IH].
  - apply invariant_run.
  - destruct e; cbn [step].
    + now apply invariant_update.
    + now apply invariant_on_click.
    + now apply invariant_on_motion.
    + now apply invariant_on_key_press.
Qed.

(** *** Runs of ticks *)

Lemma reveals_spec (s : State) :
  (reveals s = true ->
   completed s = false /\ completed (update s) = true /\
   message (update s) = mkText completion_text 0.7) /\
  (reveals s = false ->
   message (update s) = message s /\
   (completed s = false -> completed (update s) = false)).
Proof.
  unfold reveals. destruct (started s) eqn:Hs.
  - destruct (paused s) eqn:Hp.
    + rewrite (update_paused s Hs Hp). cbn. split; [discriminate |].
      intros _. now split.
    + destruct (update_running s Hs Hp) as (_ & _ & _ & _ & _ & -> & ->).
      cbn [andb negb].
      destruct (frame s <? BUILD_FRAMES); destruct (completed s); cbn;
        split; intros H; try discriminate H; repeat split; try reflexivity;
        intros H'; discriminate H'.
  - destruct (update_splash s Hs) as (_ & _ & _ & Hc & _).
    cbn. split; [discriminate |]. intros _.
    split; [| now rewrite Hc].
    destruct s; unfold update; state_cbv_in Hs; subst; reflexivity.
Qed.

Lemma reachable_ticks (n : nat) (s : State) :
  reachable s -> reachable (ticks n s).
Proof.
  intros Hr. induction n as [| n IH]; [exact Hr |].
  rewrite ticks_S. exact (reach_step _ Tick IH).
Qed.

(** The build: tick [n] leaves the counter at [n], the latch open and the
    message alone. *)
Lemma ticks_building (n : nat) (s : State) :
  started s = true -> paused s = false -> frame s = 0 ->
  completed s = false -> (n <= 100)%nat ->
  frame (ticks n s) = Z.of_nat n /\ completed (ticks n s) = false /\
  message (ticks n s) = message s.
Proof.
  intros Hs Hp Hf Hc. induction n as [| n IH]; intros Hn.
  - now repeat split.
  - destruct IH as (IHf & IHc & IHm); [lia |].
    destruct (ticks_started_paused n s Hs Hp) as [Hsn Hpn].
    rewrite ticks_S.
    destruct (update_running _ Hsn Hpn) as (-> & _ & _ & _ & _ & -> & ->).
    rewrite IHf, IHc, IHm. unfold BUILD_FRAMES, PULSE_FRAMES.
    assert (Hlt : (Z.of_nat n <? 100) = true) by (apply Z.ltb_lt; lia).
    rewrite Hlt.
    destruct (Z.geb_spec (Z.of_nat n + 1) (100 + 60)); [lia |].
    repeat split. lia.
Qed.

(** After the build: the latch is closed, the message is shown, and the
    counter is in the pulse window. *)
Lemma ticks_pulsing (n : nat) (s : State) :
  started s = true -> paused s = false -> frame s = 0 ->
  completed s = false -> (100 < n)%nat ->
  BUILD_FRAMES <= frame (ticks n s) < BUILD_FRAMES + PULSE_FRAMES /\
  completed (ticks n s) = true /\
  message (ticks n s) = mkText completion_text 0.7.
Proof.
  intros Hs Hp Hf Hc Hn.
  induction n as [| n IH]; [lia |].
  destruct (ticks_started_paused n s Hs Hp) as [Hsn Hpn].
  rewrite ticks_S.
  destruct (update_running _ Hsn Hpn) as (Hf' & _ & _ & _ & _ & -> & ->).
  destruct (Nat.eq_dec n 100) as [-> | Hne].
  - destruct (ticks_building 100 s Hs Hp Hf Hc ltac:(lia))
      as (Hf100 & Hc100 & _).
    rewrite Hf', Hf100, Hc100. unfold BUILD_FRAMES, PULSE_FRAMES.
    change (Z.of_nat 100) with 100. cbn. repeat split; lia.
  - destruct IH as (IHf & IHc & IHm); [lia |].
    assert (Hge : (frame (ticks n s) <? BUILD_FRAMES) = false)
      by (apply Z.ltb_ge; lia).
    rewrite Hge, IHc. cbn [negb andb].
    split; [| now split].
    rewrite <- ticks_S. apply (ticks_frame_pulsing 1 (ticks n s) IHf).
Qed.

Lemma started_state_facts :
  reachable started_state /\ started started_state = true /\
  paused started_state = false /\ frame started_state = 0 /\
  completed started_state = false /\ fps started_state = 3.
Proof.
  split; [apply reach_step, reach_run |]. repeat split.
Qed.

Lemma pulsing_state_facts :
  reachable pulsing_state /\ started pulsing_state = true /\
  paused pulsing_state = false /\ frame pulsing_state = BUILD_FRAMES.
Proof.
  destruct started_state_facts as (Hr & Hs & Hp & Hf & Hc & _).
  unfold pulsing_state. split; [now apply reachable_ticks |].
  destruct (ticks_started_paused 100 _ Hs Hp) as [-> ->].
  now destruct (ticks_building 100 _ Hs Hp Hf Hc ltac:(lia)) as (-> & _).
Qed.

(** C1. Once started, the counter is in [0, BUILD_FRAMES + PULSE_FRAMES)
    before and after every tick; the tick that would take it to
    [BUILD_FRAMES + PULSE_FRAMES] puts it back to [BUILD_FRAMES];
    from the pulse window no number of ticks takes it below
    [BUILD_FRAMES]; the restart key does. *)
Theorem frame_index_invariant (s : State) (n : nat) :
  reachable s -> started s = true ->
  0 <= frame s < BUILD_FRAMES + PULSE_FRAMES /\
  0 <= frame (update s) < BUILD_FRAMES + PULSE_FRAMES /\
  (paused s = false -> frame s + 1 = BUILD_FRAMES + PULSE_FRAMES ->
   frame (update s) = BUILD_FRAMES) /\
  (paused s = false -> frame s + 1 < BUILD_FRAMES + PULSE_FRAMES ->
   frame (update s) = frame s + 1) /\
  (BUILD_FRAMES <= frame s ->
   BUILD_FRAMES <= frame (ticks n s) < BUILD_FRAMES + PULSE_FRAMES) /\
  frame (on_key_press s "r") = 0.
Proof.
  intros Hr Hs. destruct (reachable_invariant s Hr) as (Hf & _).
  split; [exact Hf |]. split; [now apply update_frame_bounds |].
  split; [| split; [| split]].
  - intros Hp Hlast. destruct (update_running s Hs Hp) as (-> & _).
    rewrite Hlast.
    now destruct (Z.geb_spec (BUILD_FRAMES + PULSE_FRAMES)
                             (BUILD_FRAMES + PULSE_FRAMES)); [| lia].
  - intros Hp Hlt. destruct (update_running s Hs Hp) as (-> & _).
    destruct (Z.geb_spec (frame s + 1) (BUILD_FRAMES + PULSE_FRAMES)); lia.
  - intros Hge. apply ticks_frame_pulsing. lia.
  - now rewrite (key_restart s Hs).
Qed.

Lemma frame_index_invariant_witness :
  BUILD_FRAMES <= frame (ticks 7 pulsing_state)
               < BUILD_FRAMES + PULSE_FRAMES /\
  frame (update pulsing_state) = frame pulsing_state + 1.
Proof.
  destruct pulsing_state_facts as (Hr & Hs & Hp & Hf).
  destruct (frame_index_invariant pulsing_state 7 Hr Hs)
    as (_ & _ & _ & Hnext & Hstay & _).
  split.
  - apply Hstay. rewrite Hf. apply Z.le_refl.
  - apply Hnext; [exact Hp |]. rewrite Hf. reflexivity.
Defined.

(** On binary64 the ramp of [k] over the build frames is non-decreasing
    and ends at 50 exactly. *)
Lemma build_k_b64_last :
  build_k_b64 (BUILD_FRAMES - 1) = 50%float.
Proof. vm_compute. reflexivity. Qed.

Lemma build_k_b64_ramp :
  build_k_b64 0 = 0%float /\
  nondecreasing_b64 (map (fun i => build_k_b64 (Z.of_nat i)) (seq 0 100))
  = true.
Proof. vm_compute. split; reflexivity. Qed.

(** C2. A Building tick (started, not paused, [frame < BUILD_FRAMES])
    draws the frame of [t = frame / (BUILD_FRAMES - 1)]: the readout and
    the curve have [k = 50 * ease(t)], the curve has amplitude 0.9, and
    the three layers have their base opacity times [0.4 + 0.6 * t]; the
    latch stays open and the counter advances by one.  From [frame = 0]
    the hundredth tick draws [k = 50] and leaves the counter at
    [BUILD_FRAMES], that is in the Pulsing phase; on binary64 the [k] of
    that tick, the one of frame 99, is 50 exactly. *)
Theorem building_tick (s : State) :
  started s = true -> paused s = false -> frame s < BUILD_FRAMES ->
  (k_display (update s)
   = 50 * ease_in_out (IZR (frame s) / (100 - 1)) /\
   ydata (core_line (update s))
   = heart_curve x_samples
       (50 * ease_in_out (IZR (frame s) / (100 - 1))) 0.9 /\
   ydata (glow_inner (update s)) = ydata (core_line (update s)) /\
   ydata (glow_outer (update s)) = ydata (core_line (update s)) /\
   line_alpha (core_line (update s))
   = 0.95 * (0.4 + 0.6 * (IZR (frame s) / (100 - 1))) /\
   line_alpha (glow_inner (update s))
   = 0.25 * (0.4 + 0.6 * (IZR (frame s) / (100 - 1))) /\
   line_alpha (glow_outer (update s))
   = 0.10 * (0.4 + 0.6 * (IZR (frame s) / (100 - 1))))%R /\
  completed (update s) = false /\
  frame (update s) = frame s + 1 /\
  (frame s = 0 -> completed s = false ->
   frame (ticks 100 s) = BUILD_FRAMES /\
   phase_of (ticks 100 s) = Pulsing /\
   k_display (ticks 100 s) = 50%R) /\
  build_k_b64 (BUILD_FRAMES - 1) = 50%float.
Proof.
  intros Hs Hp Hlt.
  assert (H99 : IZR (BUILD_FRAMES - 1) = (100 - 1)%R).
  { unfold BUILD_FRAMES. change (100 - 1) with 99. lra. }
  split; [| split; [| split; [| split]]]; [| | | | apply build_k_b64_last].
  - destruct (update_building s Hs Hp Hlt) as (Hk & Ho & Hi & Hc).
    cbv zeta in *. rewrite H99 in *. rewrite Hk, Ho, Hi, Hc.
    repeat split.
  - destruct (update_running s Hs Hp) as (_ & _ & _ & _ & _ & -> & _).
    apply Z.ltb_lt in Hlt. now rewrite Hlt.
  - destruct (update_running s Hs Hp) as (-> & _).
    unfold BUILD_FRAMES, PULSE_FRAMES in *.
    destruct (Z.geb_spec (frame s + 1) (100 + 60)); lia.
  - intros Hf Hc.
    destruct (ticks_building 100 s Hs Hp Hf Hc ltac:(lia)) as (Hf100 & _).
    destruct (ticks_started_paused 100 s Hs Hp) as [Hs100 _].
    split; [exact Hf100 |]. split.
    + unfold phase_of. now rewrite Hs100, Hf100.
    + destruct (ticks_building 99 s Hs Hp Hf Hc ltac:(lia)) as (Hf99 & _).
      destruct (ticks_started_paused 99 s Hs Hp) as [Hs99 Hp99].
      rewrite (ticks_S 99 s).
      destruct (update_building (ticks 99 s) Hs99 Hp99) as (Hk & _).
      { rewrite Hf99. reflexivity. }
      cbv zeta in Hk. rewrite Hk, Hf99, H99.
      change (Z.of_nat 99) with 99. unfold K_FINAL.
      replace (99 / (100 - 1))%R with 1%R by lra.
      rewrite ease_in_out_unit by lra. lra.
Qed.

Lemma building_tick_witness :
  k_display (update started_state)
  = (50 * ease_in_out (IZR (frame started_state) / (100 - 1)))%R /\
  k_display (ticks 100 started_state) = 50%R.
Proof.
  destruct started_state_facts as (_ & Hs & Hp & Hf & Hc & _).
  assert (Hlt : frame started_state < BUILD_FRAMES)
    by (rewrite Hf; reflexivity).
  destruct (building_tick started_state Hs Hp Hlt)
    as ((Hk & _) & _ & _ & H100 & _).
  split; [exact Hk |]. now apply H100.
Defined.

(** C4. From [frame = 0] with the latch open, ticking without any other
    event: the latch is open up to tick 100 and closed from tick 101 on;
    the one tick that closes it and reveals the message is the first
    Pulsing tick, the tick taken in the state after 100 ticks; no later
    tick, before or after the counter wraps, reveals again or touches the
    message. *)
Theorem completion_latch (s : State) (n : nat) :
  started s = true -> paused s = false -> frame s = 0 ->
  completed s = false ->
  (completed (ticks n s) = true <-> (100 < n)%nat) /\
  (reveals (ticks n s) = true <-> n = 100%nat) /\
  (completed (ticks n s) = false /\ completed (ticks (S n) s) = true
   <-> n = 100%nat) /\
  (phase_of (ticks n s) = Pulsing <-> (100 <= n)%nat) /\
  ((n <= 100)%nat -> message (ticks n s) = message s) /\
  ((100 < n)%nat ->
   message (ticks n s) = mkText completion_text 0.7 /\
   message (ticks (S n) s) = message (ticks n s)).
Proof.
  intros Hs Hp Hf Hc.
  destruct (ticks_started_paused n s Hs Hp) as [Hsn Hpn].
  assert (Hcn : completed (ticks n s) = true <-> (100 < n)%nat).
  { destruct (le_lt_dec n 100) as [Hle | Hgt].
    - destruct (ticks_building n s Hs Hp Hf Hc Hle) as (_ & -> & _).
      split; [discriminate | lia].
    - destruct (ticks_pulsing n s Hs Hp Hf Hc Hgt) as (_ & -> & _).
      now split. }
  assert (Hfn : frame (ticks n s) < BUILD_FRAMES <-> (n < 100)%nat).
  { unfold BUILD_FRAMES. destruct (le_lt_dec n 100) as [Hle | Hgt].
    - destruct (ticks_building n s Hs Hp Hf Hc Hle) as (-> & _). lia.
    - destruct (ticks_pulsing n s Hs Hp Hf Hc Hgt) as (Hb & _).
      unfold BUILD_FRAMES in Hb. lia. }
  assert (HcS : completed (ticks (S n) s) = true <-> (100 <= n)%nat).
  { destruct (le_lt_dec (S n) 100) as [Hle | Hgt].
    - destruct (ticks_building (S n) s Hs Hp Hf Hc Hle) as (_ & -> & _).
      split; [discriminate | lia].
    - destruct (ticks_pulsing (S n) s Hs Hp Hf Hc Hgt) as (_ & -> & _).
      split; [lia | reflexivity]. }
  split; [exact Hcn |]. split; [| split; [| split; [| split]]].
  - unfold reveals. rewrite Hsn, Hpn. cbn [andb negb].
    destruct (Z.ltb_spec (frame (ticks n s)) BUILD_FRAMES) as [Hl | Hg];
      destruct (completed (ticks n s)) eqn:Hcv; cbn [andb negb].
    + split; [discriminate | intros ->]. apply Hfn in Hl. lia.
    + split; [discriminate | intros ->]. apply Hfn in Hl. lia.
    + split; [discriminate | intros ->].
      assert (100 < 100)%nat by now apply Hcn. lia.
    + split; [| reflexivity]. intros _.
      assert (Hn1 : ~ (100 < n)%nat)
        by (intros Hx; apply Hcn in Hx; congruence).
      assert (Hn2 : ~ (n < 100)%nat) by (intros Hx; apply Hfn in Hx; lia).
      lia.
  - split.
    + intros [Hopen Hclosed]. apply HcS in Hclosed.
      assert (Hn1 : ~ (100 < n)%nat)
        by (intros Hx; apply Hcn in Hx; congruence).
      lia.
    + intros ->. split.
      * destruct (completed (ticks 100 s)) eqn:Hcv; [| reflexivity].
        assert (100 < 100)%nat by now apply Hcn. lia.
      * apply HcS. lia.
  - unfold phase_of. rewrite Hsn. cbn [negb].
    destruct (Z.ltb_spec (frame (ticks n s)) BUILD_FRAMES) as [Hl | Hg].
    + split; [discriminate |]. intros Hn. apply Hfn in Hl. lia.
    + split; [| reflexivity]. intros _.
      destruct (le_lt_dec 100 n) as [Hle | Hlt]; [exact Hle |].
      apply Hfn in Hlt. lia.
  - intros Hle.
    now destruct (ticks_building n s Hs Hp Hf Hc Hle) as (_ & _ & ->).
  - intros Hgt.
    destruct (ticks_pulsing n s Hs Hp Hf Hc Hgt) as (_ & _ & ->).
    split; [reflexivity |].
    now destruct (ticks_pulsing (S n) s Hs Hp Hf Hc ltac:(lia))
      as (_ & _ & ->).
Qed.

Lemma completion_latch_witness :
  (reveals (ticks 100 started_state) = true <-> 100%nat = 100%nat) /\
  (completed (ticks 100 started_state) = true <-> (100 < 100)%nat).
Proof.
  destruct started_state_facts as (_ & Hs & Hp & Hf & Hc & _).
  destruct (completion_latch started_state 100 Hs Hp Hf Hc)
    as (Hclosed & Hreveal & _).
  split; [exact Hreveal | exact Hclosed].
Defined.

(** C5. The restart key in a started state, whatever the counter, the
    pause flag and the latch: the counter is 0, the latch open, the pause
    flag off; the three curve layers hold no points, the message is empty
    and transparent and the readout shows 0; the machine stays started,
    in the Building phase, and the next tick is the Building tick of
    frame 0. *)
Theorem restart_resets (s : State) :
  started s = true ->
  let r := on_key_press s "r" in
  frame r = 0 /\ completed r = false /\ paused r = false /\
  (xdata (glow_outer r) = [] /\ ydata (glow_outer r) = [] /\
   xdata (glow_inner r) = [] /\ ydata (glow_inner r) = [] /\
   xdata (core_line r) = [] /\ ydata (core_line r) = []) /\
  message r = mkText "" 0 /\ k_display r = 0%R /\
  started r = true /\ phase_of r = Building /\
  fps r = fps s /\
  frame (update r) = 1 /\ completed (update r) = false /\
  k_display (update r) = 0%R.
Proof.
  intros Hs r. subst r. rewrite (key_restart s Hs).
  set (r := draw_idle _).
  assert (Hr : frame r = 0 /\ completed r = false /\ paused r = false /\
               (xdata (glow_outer r) = [] /\ ydata (glow_outer r) = [] /\
                xdata (glow_inner r) = [] /\ ydata (glow_inner r) = [] /\
                xdata (core_line r) = [] /\ ydata (core_line r) = []) /\
               message r = mkText "" 0 /\ k_display r = 0%R /\
               started r = true /\ fps r = fps s).
  { subst r. destruct s; state_cbv; state_cbv_in Hs. now subst. }
  destruct Hr as (Hrf & Hrc & Hrp & Hdata & Hmsg & Hk0 & Hrs & Hfps).
  assert (Hlt : frame r < BUILD_FRAMES) by (rewrite Hrf; reflexivity).
  destruct (update_building r Hrs Hrp Hlt) as (Hk & _).
  destruct (update_running r Hrs Hrp) as (Hf & _ & _ & _ & _ & Hc & _).
  cbv zeta in Hk. rewrite Hk, Hc, Hf, Hrf.
  split; [reflexivity |]. split; [exact Hrc |]. split; [exact Hrp |].
  split; [exact Hdata |]. split; [exact Hmsg |]. split; [exact Hk0 |].
  split; [exact Hrs |]. split; [| split; [exact Hfps |]].
  - unfold phase_of. now rewrite Hrs, Hrf.
  - repeat split.
    unfold BUILD_FRAMES, K_FINAL. change (100 - 1) with 99.
    replace (0 / 99)%R with 0%R by lra.
    rewrite ease_in_out_unit by lra. lra.
Qed.

Lemma restart_resets_witness :
  frame (on_key_press pulsing_state "r") = 0 /\
  phase_of (on_key_press pulsing_state "r") = Building.
Proof.
  destruct pulsing_state_facts as (_ & Hs & _).
  destruct (restart_resets pulsing_state Hs)
    as (Hf & _ & _ & _ & _ & _ & _ & Hph & _).
  split; [exact Hf | exact Hph].
Defined.

(** C6. In a started, paused state a tick returns the state itself, so
    any number of ticks leaves the counter, the latch and everything
    drawn as they were; the Space key then clears the pause flag and
    keeps the counter, and the next tick is the tick of that frame: the
    counter goes to the next value after the one held. *)
Theorem paused_tick_noop (s : State) (n : nat) :
  started s = true -> paused s = true ->
  update s = s /\ ticks n s = s /\
  let r := on_key_press (ticks n s) " " in
  paused r = false /\ started r = true /\ frame r = frame s /\
  completed r = completed s /\
  frame (update r)
  = (if frame s + 1 >=? BUILD_FRAMES + PULSE_FRAMES
     then BUILD_FRAMES else frame s + 1).
Proof.
  intros Hs Hp.
  assert (Hn : ticks n s = s).
  { induction n as [| n IH]; [reflexivity |].
    rewrite ticks_S, IH. now apply update_paused. }
  split; [now apply update_paused |]. split; [exact Hn |].
  rewrite Hn. cbv zeta.
  destruct (key_space s Hs) as (Hp' & Hf' & Hc' & Hs' & _).
  rewrite Hp in Hp'. cbn [negb] in Hp'.
  destruct (update_running _ Hs' Hp') as (-> & _).
  rewrite Hf'. now repeat split.
Qed.

Lemma paused_tick_noop_witness :
  ticks 10 (on_key_press pulsing_state " ") = on_key_press pulsing_state " ".
Proof.
  destruct pulsing_state_facts as (_ & Hs & Hp & _).
  destruct (key_space pulsing_state Hs) as (Hp' & _ & _ & Hs' & _).
  rewrite Hp in Hp'.
  exact (proj1 (proj2 (paused_tick_noop _ 10 Hs' Hp'))).
Defined.

Lemma update_set_speed (v : Z) (s : State) :
  update (set_speed v s) = set_speed v (update s).
Proof.
  destruct s as [f p sp c st tk hv [i |] go gi cl kd msg bg bp se fp ft cv
                 dr cd];
    unfold update, set_speed; state_cbv;
    destruct st; [destruct p | | destruct p |]; state_cbv;
    try reflexivity;
    (destruct (_ <? BUILD_FRAMES); [| destruct c]; state_cbv;
     destruct (_ >=? _); reflexivity).
Qed.

Lemma speed_key_running (s : State) :
  started s = true ->
  on_key_press s "up" = set_speed (Z.min 30 (fps s + 1)) s /\
  on_key_press s "down" = set_speed (Z.max 1 (fps s - 1)) s.
Proof.
  intros Hs. unfold on_key_press. rewrite Hs. cbn [negb]. key_eval.
  split; reflexivity.
Qed.

Lemma update_speed_key (s : State) (key : string) :
  key = "up" \/ key = "down" ->
  update (on_key_press s key) = on_key_press (update s) key.
Proof.
  intros Hkey. destruct (started s) eqn:Hs.
  - destruct (speed_key_running s Hs) as [Hu Hd].
    assert (Hs' : started (update s) = true)
      by now rewrite update_started.
    destruct (speed_key_running (update s) Hs') as [Hu' Hd'].
    destruct (update_fps_anim s) as [Hfps _]. rewrite Hfps in Hu', Hd'.
    destruct Hkey as [-> | ->].
    + rewrite Hu, Hu'. apply update_set_speed.
    + rewrite Hd, Hd'. apply update_set_speed.
  - assert (Hs' : started (update s) = false)
      by now rewrite update_started.
    rewrite (key_before_start s key Hs).
    rewrite (key_before_start (update s) key Hs').
    destruct Hkey as [-> | ->]; reflexivity.
Qed.

(** C7. The speed stays in [1, 30].  In a started state the Up key sets
    it to [min(30, fps + 1)] and the Down key to [max(1, fps - 1)], and
    each sets the interval of the timer to [1000 // fps] milliseconds for
    the new speed; from 3, forty Ups give 30 and forty Downs give 1; a
    tick does the same before and after a change of speed. *)
Theorem fps_clamped (s : State) :
  reachable s ->
  1 <= fps s <= 30 /\
  (started s = true ->
   fps (on_key_press s "up") = Z.min 30 (fps s + 1) /\
   fps (on_key_press s "down") = Z.max 1 (fps s - 1) /\
   anim (on_key_press s "up") = Some (1000 / fps (on_key_press s "up")) /\
   anim (on_key_press s "down")
   = Some (1000 / fps (on_key_press s "down")) /\
   (fps s = 3 ->
    fps (presses "up" 40 s) = 30 /\ fps (presses "down" 40 s) = 1)) /\
  update (on_key_press s "up") = on_key_press (update s) "up" /\
  update (on_key_press s "down") = on_key_press (update s) "down".
Proof.
  intros Hr. destruct (reachable_invariant s Hr) as (_ & Hfps & Ha & _).
  split; [exact Hfps |]. split; [| split].
  - intros Hs.
    destruct (key_up s Hs) as (Hu & Hua & _).
    destruct (key_down s Hs) as (Hd & Hda & _).
    rewrite Hu, Hd, Hua, Hda.
    destruct (anim s) as [i |]; [| contradiction].
    repeat split.
    + assert (Hup : forall m, started (presses "up" m s) = true /\
                fps (presses "up" m s) = Z.min 30 (fps s + Z.of_nat m)).
      { induction m as [| m [IHs IHf]].
        - split; [exact Hs | cbn; lia].
        - change (presses "up" (S m) s)
            with (on_key_press (presses "up" m s) "up").
          destruct (key_up _ IHs) as (-> & _ & -> & _).
          split; [reflexivity | lia]. }
      destruct (Hup 40%nat) as [_ ->]. lia.
    + assert (Hdn : forall m, started (presses "down" m s) = true /\
                fps (presses "down" m s) = Z.max 1 (fps s - Z.of_nat m)).
      { induction m as [| m [IHs IHf]].
        - split; [exact Hs | cbn; lia].
        - change (presses "down" (S m) s)
            with (on_key_press (presses "down" m s) "down").
          destruct (key_down _ IHs) as (-> & _ & -> & _).
          split; [reflexivity | lia]. }
      destruct (Hdn 40%nat) as [_ ->]. lia.
  - apply update_speed_key. now left.
  - apply update_speed_key. now right.
Qed.

Lemma fps_clamped_witness :
  fps (presses "up" 40 started_state) = 30 /\
  fps (presses "down" 40 started_state) = 1 /\
  anim (on_key_press started_state "up") = Some 250.
Proof.
  destruct started_state_facts as (Hr & Hs & _ & _ & _ & Hfps).
  destruct (fps_clamped started_state Hr) as (_ & Hkeys & _).
  destruct (Hkeys Hs) as (Hu & _ & Hua & _ & H40).
  destruct (H40 Hfps) as [H30 H1].
  split; [exact H30 |]. split; [exact H1 |].
  rewrite Hua, Hu, Hfps. reflexivity.
Defined.

(** *** Pointer events *)

Lemma Rleb_true (a b : R) : (a <= b)%R -> Rleb a b = true.
Proof. intros H. unfold Rleb. now destruct (Rle_dec a b). Qed.

Lemma over_centre_hit : is_over_button (run (init 1000 900)) over_centre = true.
Proof.
  unfold is_over_button, over_centre, transFigure_inverted, run, init.
  state_cbv. cbn [ev_x ev_y fst snd].
  rewrite !Rleb_true; [reflexivity | lra ..].
Qed.

Lemma hovered_state_facts :
  reachable hovered_state /\ started hovered_state = false /\
  hovering_btn hovered_state = true /\
  btn_patch hovered_state = mkPatch btn_hover 1.0 2.5.
Proof.
  split; [apply reach_step, reach_run |].
  unfold hovered_state, step, on_motion.
  rewrite over_centre_hit. repeat split.
Qed.

Lemma missing_coordinate_miss (s : State) (e : MouseEvent) :
  ev_x e = None \/ ev_y e = None -> is_over_button s e = false.
Proof.
  unfold is_over_button. intros [-> | ->]; [reflexivity |].
  now destruct (ev_x e).
Qed.

(** C8, as the claim states it, fails: in a started state the Enter key
    does not toggle the pause flag. *)
Lemma enter_does_not_pause :
  started started_state = true /\
  paused (on_key_press started_state "enter")
  <> negb (paused started_state).
Proof.
  destruct started_state_facts as (_ & Hs & Hp & _).
  split; [exact Hs |].
  rewrite (key_enter_running _ Hs), Hp. discriminate.
Qed.

(** C8, amended. Before Start, Space and Enter both start the animation:
    the machine is started and in the Building phase.  After Start, Space
    toggles the pause flag and keeps the counter, while Enter changes
    nothing. *)
Theorem key_space_enter (s : State) (key : string) :
  reachable s -> key = " " \/ key = "enter" ->
  (started s = false ->
   on_key_press s key = start_animation s /\
   started (on_key_press s key) = true /\
   phase_of (on_key_press s key) = Building) /\
  (started s = true ->
   paused (on_key_press s " ") = negb (paused s) /\
   frame (on_key_press s " ") = frame s /\
   started (on_key_press s " ") = true /\
   on_key_press s "enter" = s).
Proof.
  intros Hr Hkey. split; intros Hs.
  - destruct (reachable_invariant s Hr) as (_ & _ & _ & Hsplash).
    destruct (Hsplash Hs) as (Hf & _).
    assert (Heq : on_key_press s key = start_animation s).
    { rewrite (key_before_start s key Hs).
      destruct Hkey as [-> | ->]; reflexivity. }
    rewrite Heq.
    destruct (start_animation_attrs s) as (Hs' & Hf' & _).
    split; [reflexivity |]. split; [exact Hs' |].
    unfold phase_of. now rewrite Hs', Hf', Hf.
  - destruct (key_space s Hs) as (Hp & Hf & _ & Hs' & _).
    split; [exact Hp |]. split; [exact Hf |]. split; [exact Hs' |].
    now apply key_enter_running.
Qed.

Lemma key_space_enter_witness :
  phase_of (on_key_press (run (init 1000 900)) "enter") = Building /\
  paused (on_key_press started_state " ") = negb (paused started_state) /\
  on_key_press started_state "enter" = started_state.
Proof.
  destruct started_state_facts as (Hr & Hs & _).
  split.
  - destruct (key_space_enter (run (init 1000 900)) "enter"
                (reach_run 1000 900) (or_intror eq_refl)) as [Hstart _].
    now apply Hstart.
  - destruct (key_space_enter started_state " " Hr (or_introl eq_refl))
      as [_ Hrun].
    destruct (Hrun Hs) as (Hp & _ & _ & He). now split.
Defined.

(** C10, as the claim states it, fails: with the button highlighted, a
    motion event without an x coordinate switches the highlight off. *)
Lemma motion_without_position_unhovers :
  reachable hovered_state /\ ev_x no_position = None /\
  hovering_btn hovered_state = true /\
  hovering_btn (on_motion hovered_state no_position) = false /\
  btn_patch (on_motion hovered_state no_position)
  <> btn_patch hovered_state.
Proof.
  destruct hovered_state_facts as (Hr & Hs & Hh & Hb).
  split; [exact Hr |]. split; [reflexivity |]. split; [exact Hh |].
  unfold on_motion.
  rewrite Hs, Hh, (missing_coordinate_miss hovered_state no_position)
    by now left.
  cbn [negb andb]. split; [reflexivity |].
  rewrite Hb. change (btn_patch _) with (mkPatch btn_face 0.95 2.0).
  intros Heq. discriminate Heq.
Qed.

(** C10, amended. For a pointer event whose x or y is missing the hit
    test answers false; a click with it changes nothing, so never starts
    the animation; a motion event with it never switches the highlight
    on: it changes nothing when the highlight is off or the animation has
    started, and before Start it switches a highlight that is on off. *)
Theorem pointer_without_position (s : State) (e : MouseEvent) :
  ev_x e = None \/ ev_y e = None ->
  is_over_button s e = false /\
  on_click s e = s /\
  (hovering_btn s = false -> on_motion s e = s) /\
  (started s = true -> on_motion s e = s) /\
  (started s = false -> hovering_btn (on_motion s e) = false) /\
  (started s = false -> hovering_btn s = true ->
   btn_patch (on_motion s e) = mkPatch btn_face 0.95 2.0) /\
  started (on_motion s e) = started s.
Proof.
  intros He. pose proof (missing_coordinate_miss s e He) as Hmiss.
  unfold on_click, on_motion. rewrite Hmiss. cbn [negb andb].
  split; [reflexivity |]. split; [now destruct (negb (started s)) |].
  split; [| split; [| split; [| split]]].
  - intros ->. now destruct (negb (started s)).
  - now intros ->.
  - intros ->. cbn [negb]. now destruct (hovering_btn s) eqn:Hh.
  - now intros -> ->.
  - destruct (started s) eqn:Hs; cbn [negb]; [exact Hs |].
    destruct (hovering_btn s); exact Hs.
Qed.

Lemma pointer_without_position_witness :
  is_over_button hovered_state no_position = false /\
  on_click hovered_state no_position = hovered_state /\
  hovering_btn (on_motion hovered_state no_position) = false.
Proof.
  destruct hovered_state_facts as (_ & Hs & _).
  destruct (pointer_without_position hovered_state no_position
              (or_introl eq_refl))
    as (Hmiss & Hclick & _ & _ & Hoff & _).
  split; [exact Hmiss |]. split; [exact Hclick |]. now apply Hoff.
Defined.

(** ** The handlers, branch by branch *)

Lemma on_key_press_cases (s : State) (key : string) :
  (started s = false /\
   (on_key_press s key = start_animation s \/
    on_key_press s key = close_all s \/
    on_key_press s key = s)) \/
  (started s = true /\
   (on_key_press s key = toggle_pause s \/
    on_key_press s key = restart s \/
    on_key_press s key = close_all s \/
    on_key_press s key = set_speed (Z.min 30 (fps s + 1)) s \/
    on_key_press s key = set_speed (Z.max 1 (fps s - 1)) s \/
    on_key_press s key = s)).
Proof.
  destruct (started s) eqn:Hs; [right | left]; (split; [reflexivity |]).
  - unfold on_key_press. rewrite Hs. cbn [negb].
    destruct (key =? " ")%string; [now left |].
    destruct (key =? "r")%string; [now right; left |].
    destruct (key_in key ["q"; "escape"]); [now right; right; left |].
    destruct (key =? "up")%string; [now right; right; right; left |].
    destruct (key =? "down")%string; [now right; right; right; right; left |].
    now right; right; right; right; right.
  - rewrite (key_before_start s key Hs).
    destruct (key_in key [" "; "enter"]); [now left |].
    destruct (key_in key ["q"; "escape"]); [now right; left |].
    now right; right.
Qed.

Lemma on_motion_cases (s : State) (e : MouseEvent) :
  (started s = false /\ hovering_btn s = false /\
   is_over_button s e = true /\ on_motion s e = hover_on s) \/
  (started s = false /\ hovering_btn s = true /\
   is_over_button s e = false /\ on_motion s e = hover_off s) \/
  on_motion s e = s.
Proof.
  unfold on_motion. destruct (started s); cbn [negb]; [now right; right |].
  destruct (is_over_button s e), (hovering_btn s); cbn [negb andb].
  - now right; right.
  - left. now repeat split.
  - right; left. now repeat split.
  - now right; right.
Qed.

Lemma on_click_cases (s : State) (e : MouseEvent) :
  (started s = false /\ is_over_button s e = true /\
   on_click s e = start_animation s) \/
  on_click s e = s.
Proof.
  unfold on_click. destruct (started s); cbn [negb]; [now right |].
  destruct (is_over_button s e); [left; now repeat split | now right].
Qed.

(** Induction over the reachable states, one case for each branch of a
    handler that changes the state. *)
Lemma reachable_branches (P : State -> Prop) :
  (forall width height, P (run (init width height))) ->
  (forall s, reachable s -> P s -> P (update s)) ->
  (forall s, reachable s -> P s -> started s = false ->
             P (start_animation s)) ->
  (forall s, reachable s -> P s -> P (close_all s)) ->
  (forall s, reachable s -> P s -> started s = false ->
             hovering_btn s = false -> P (hover_on s)) ->
  (forall s, reachable s -> P s -> started s = false ->
             hovering_btn s = true -> P (hover_off s)) ->
  (forall s, reachable s -> P s -> started s = true ->
             P (toggle_pause s)) ->
  (forall s, reachable s -> P s -> started s = true -> P (restart s)) ->
  (forall s v, reachable s -> P s -> started s = true -> 1 <= v <= 30 ->
               P (set_speed v s)) ->
  forall s, reachable s -> P s.
Proof.
  intros Hinit Htick Hstart Hclose Hon Hoff Hpause Hrestart Hspeed.
  induction 1 as [width height | s e Hr IH]; [apply Hinit |].
  destruct e as [| m | m | key]; cbn [step].
  - now apply Htick.
  - destruct (on_click_cases s m) as [(Hs & _ & ->) | ->];
      [now apply Hstart | exact IH].
  - destruct (on_motion_cases s m)
      as [(Hs & Hh & _ & ->) | [(Hs & Hh & _ & ->) | ->]];
      [now apply Hon | now apply Hoff | exact IH].
  - destruct (reachable_invariant s Hr) as (_ & Hfps & _).
    destruct (on_key_press_cases s key)
      as [(Hs & [-> | [-> | ->]]) |
          (Hs & [-> | [-> | [-> | [-> | [-> | ->]]]]])].
    + now apply Hstart.
    + now apply Hclose.
    + exact IH.
    + now apply Hpause.
    + now apply Hrestart.
    + now apply Hclose.
    + apply Hspeed; try assumption. lia.
    + apply Hspeed; try assumption. lia.
    + exact IH.
Qed.

(** ** Leaving the start screen *)

Lemma remaining_patches_In (l ps : list artist) (b : artist) :
  In b (remaining_patches l ps) <->
  In b ps /\ ~ (In b l /\ is_FancyBboxPatch b = true).
Proof.
  revert ps. induction l as [| a l IH]; intros ps; cbn.
  - tauto.
  - fold (remaining_patches l
            (if is_FancyBboxPatch a then remove artist_eq_dec a ps else ps)).
    rewrite IH. destruct (is_FancyBboxPatch a) eqn:Ha.
    + split.
      * intros [Hin Hn]. apply in_remove in Hin. destruct Hin as [Hin Hne].
        split; [exact Hin |]. intros [[-> | Hl] Hb]; tauto.
      * intros [Hin Hn]. split; [| tauto].
        apply in_in_remove; [| exact Hin].
        intros ->. apply Hn. split; [now left | exact Ha].
    + split.
      * intros [Hin Hn]. split; [exact Hin |].
        intros [[-> | Hl] Hb]; [congruence | tauto].
      * tauto.
Qed.

Lemma remaining_texts_In (l ts : list artist) (b : artist) :
  In b (remaining_texts l ts) <->
  In b ts /\ ~ (In b l /\ is_FancyBboxPatch b = false).
Proof.
  revert ts. induction l as [| a l IH]; intros ts; cbn.
  - tauto.
  - fold (remaining_texts l
            (if is_FancyBboxPatch a then ts else remove artist_eq_dec a ts)).
    rewrite IH. destruct (is_FancyBboxPatch a) eqn:Ha.
    + split.
      * intros [Hin Hn]. split; [exact Hin |].
        intros [[-> | Hl] Hb]; [congruence | tauto].
      * tauto.
    + split.
      * intros [Hin Hn]. apply in_remove in Hin. destruct Hin as [Hin Hne].
        split; [exact Hin |]. intros [[-> | Hl] Hb]; tauto.
      * intros [Hin Hn]. split; [| tauto].
        apply in_in_remove; [| exact Hin].
        intros ->. apply Hn. split; [now left | exact Ha].
Qed.

Lemma fold_remove_element (l : list artist) (s : State) :
  fold_left remove_element l s
  = set_fig_texts (remaining_texts l (fig_texts s))
      (set_fig_patches (remaining_patches l (fig_patches s)) s).
Proof.
  revert s. induction l as [| a l IH]; intros s.
  - destruct s; reflexivity.
  - cbn [fold_left]. rewrite IH. unfold remove_element.
    unfold remaining_texts, remaining_patches. cbn [fold_left].
    destruct (is_FancyBboxPatch a).
    + destruct (in_dec artist_eq_dec a (fig_patches s)) as [Hin | Hnot].
      * destruct s; reflexivity.
      * rewrite (notin_remove artist_eq_dec _ _ Hnot). reflexivity.
    + destruct s; reflexivity.
Qed.

Lemma remove_start_screen_eq (s : State) :
  remove_start_screen s
  = set_splash_elements []
      (set_fig_texts (remaining_texts (splash_elements s) (fig_texts s))
         (set_fig_patches
            (remaining_patches (splash_elements s) (fig_patches s)) s)).
Proof. unfold remove_start_screen. now rewrite fold_remove_element. Qed.

Lemma remove_first_NoDup (a : artist) (l : list artist) :
  NoDup l -> In a l -> remove_first a l = Some (remove artist_eq_dec a l).
Proof.
  induction l as [| b l IH]; intros Hnd Hin; [contradiction |].
  inversion Hnd as [| ? ? Hnotin Hnd']; subst. cbn [remove_first remove].
  destruct (artist_eq_dec a b) as [-> | Hne].
  - now rewrite (notin_remove artist_eq_dec _ _ Hnotin).
  - destruct Hin as [-> | Hin]; [contradiction |].
    now rewrite (IH Hnd' Hin).
Qed.

Lemma remove_first_missing (a : artist) (l : list artist) :
  ~ In a l -> remove_first a l = None.
Proof.
  induction l as [| b l IH]; intros Hnot; [reflexivity |].
  cbn [remove_first]. destruct (artist_eq_dec a b) as [-> | Hne].
  - exfalso. apply Hnot. now left.
  - rewrite IH; [reflexivity |]. intros Hin. apply Hnot. now right.
Qed.

Lemma NoDup_remove_all (a : artist) (l : list artist) :
  NoDup l -> NoDup (remove artist_eq_dec a l).
Proof.
  induction l as [| b l IH]; intros Hnd; [constructor |].
  inversion Hnd as [| ? ? Hnotin Hnd']; subst. cbn [remove].
  destruct (artist_eq_dec a b); [now apply IH |].
  constructor; [| now apply IH].
  intros Hin. apply in_remove in Hin. now destruct Hin.
Qed.

Lemma fold_remove_element_checked (l : list artist) (s : State) :
  NoDup l -> NoDup (fig_patches s) -> NoDup (fig_texts s) ->
  (forall a, In a l -> is_FancyBboxPatch a = false -> In a (fig_texts s)) ->
  fold_left (fun acc element =>
               match acc with
               | Some s' => remove_element_checked s' element
               | None => None
               end) l (Some s)
  = Some (fold_left remove_element l s).
Proof.
  revert s. induction l as [| a l IH]; intros s Hl Hp Ht Hin;
    [reflexivity |].
  inversion Hl as [| ? ? Hnotin Hl']; subst. cbn [fold_left].
  assert (Hstep : remove_element_checked s a = Some (remove_element s a)).
  { unfold remove_element_checked, remove_element.
    destruct (is_FancyBboxPatch a) eqn:Ha.
    - destruct (in_dec artist_eq_dec a (fig_patches s)) as [Hi | _];
        [| reflexivity].
      now rewrite (remove_first_NoDup a _ Hp Hi).
    - rewrite (remove_first_NoDup a _ Ht); [reflexivity |].
      apply Hin; [now left | exact Ha]. }
  rewrite Hstep. apply IH; try assumption.
  - unfold remove_element. destruct (is_FancyBboxPatch a);
      [destruct (in_dec _ _ _) |]; try assumption.
    now apply NoDup_remove_all.
  - unfold remove_element. destruct (is_FancyBboxPatch a);
      [destruct (in_dec _ _ _) |]; try assumption.
    now apply NoDup_remove_all.
  - intros b Hb Hbt.
    assert (Hbin : In b (fig_texts s)) by (apply Hin; [now right | exact Hbt]).
    unfold remove_element. destruct (is_FancyBboxPatch a);
      [destruct (in_dec _ _ _) |]; try assumption.
    apply in_in_remove; [| exact Hbin]. intros ->. contradiction.
Qed.

(** X1. On a figure as the constructor builds it (no artist twice in a
    list, every splash text among the texts of the figure)
    [_remove_start_screen] raises no exception; it empties the list of
    splash elements; an artist is left in [fig.patches] exactly when it
    was there and is not a splash patch, and in [fig.texts] exactly when
    it was there and is not a splash text; a second call changes nothing
    more. *)
Theorem remove_start_screen_clears (s : State) (b : artist) :
  figure_well_formed s ->
  remove_start_screen_checked s = Some (remove_start_screen s) /\
  splash_elements (remove_start_screen s) = [] /\
  (In b (fig_patches (remove_start_screen s)) <->
   In b (fig_patches s) /\
   ~ (In b (splash_elements s) /\ is_FancyBboxPatch b = true)) /\
  (In b (fig_texts (remove_start_screen s)) <->
   In b (fig_texts s) /\
   ~ (In b (splash_elements s) /\ is_FancyBboxPatch b = false)) /\
  remove_start_screen_checked (remove_start_screen s)
  = Some (remove_start_screen s).
Proof.
  intros (Hl & Hp & Ht & Hin).
  split.
  { unfold remove_start_screen_checked, remove_start_screen.
    now rewrite (fold_remove_element_checked _ s Hl Hp Ht Hin). }
  split; [reflexivity |]. rewrite !remove_start_screen_eq.
  split; [| split].
  - change (fig_patches (set_splash_elements _ _))
      with (remaining_patches (splash_elements s) (fig_patches s)).
    apply remaining_patches_In.
  - change (fig_texts (set_splash_elements _ _))
      with (remaining_texts (splash_elements s) (fig_texts s)).
    apply remaining_texts_In.
  - destruct s; reflexivity.
Qed.

Lemma remove_start_screen_clears_witness :
  remove_start_screen_checked (run (init 1000 900))
  = Some (remove_start_screen (run (init 1000 900))).
Proof.
  apply (remove_start_screen_clears (run (init 1000 900)) Title).
  unfold figure_well_formed. cbn [run init set_anim splash_elements
    fig_patches fig_texts].
  repeat split.
  - repeat (constructor; [cbn [In]; intuition discriminate |]). constructor.
  - repeat (constructor; [cbn [In]; intuition discriminate |]). constructor.
  - repeat (constructor; [cbn [In]; intuition discriminate |]). constructor.
  - intros a Ha Hpatch. cbn [In] in *.
    destruct Ha as [<- | [<- | [<- | [<- | [<- | []]]]]];
      try discriminate Hpatch; tauto.
Defined.

(** Without its text in [fig.texts] a splash element makes the removal
    raise. *)
Lemma remove_start_screen_checked_raises :
  remove_start_screen_checked (set_fig_texts [] (run (init 1000 900)))
  = None.
Proof. reflexivity. Qed.

Lemma start_animation_eq (s : State) :
  anim s <> None ->
  start_animation s
  = draw_idle
      (set_anim (Some (1000 / fps s))
         (set_splash_elements []
            (set_fig_texts
               (remaining_texts (splash_elements s) (fig_texts s))
               (set_fig_patches
                  (remaining_patches (splash_elements s) (fig_patches s))
                  (set_started true s))))).
Proof.
  intros Ha. unfold start_animation. cbv zeta.
  rewrite remove_start_screen_eq.
  destruct s; state_cbv_in Ha; state_cbv.
  destruct anim0; [reflexivity | contradiction].
Qed.

(** ** What the reachable states have in common *)

Lemma update_keeps (s : State) :
  btn_patch (update s) = btn_patch s /\
  hovering_btn (update s) = hovering_btn s /\
  closed (update s) = closed s /\
  canvas (update s) = canvas s /\
  splash_elements (update s) = splash_elements s /\
  fig_patches (update s) = fig_patches s /\
  fig_texts (update s) = fig_texts s.
Proof.
  destruct s as [f p sp c st tk hv a go gi cl kd msg bg bp se fp ft cv
                 dr cd];
    unfold update; state_cbv.
  destruct st; [destruct p |]; state_cbv; [now repeat split | |
    now repeat split].
  destruct (_ <? BUILD_FRAMES); [| destruct c]; state_cbv;
    destruct (_ >=? _); now repeat split.
Qed.

Lemma update_splash_display (s : State) :
  started s = false ->
  glow_outer (update s) = glow_outer s /\
  glow_inner (update s) = glow_inner s /\
  core_line (update s) = core_line s /\
  k_display (update s) = k_display s /\
  message (update s) = message s /\
  draws (update s) = S (draws s) /\
  btn_glow_alpha (update s)
  = Rmax 0 (0.08 + 0.14 * sin (2 * PI * IZR (splash_tick s + 1) / 30)).
Proof.
  destruct s; state_cbv; intros ->. unfold update; state_cbv.
  now repeat split.
Qed.

Lemma interval_bounds (v : Z) : 1 <= v <= 30 -> 33 <= 1000 / v <= 1000.
Proof.
  intros Hv. split.
  - change 33 with (1000 / 30). apply Z.div_le_compat_l; lia.
  - change 1000 with (1000 / 1) at 2. apply Z.div_le_compat_l; lia.
Qed.

Lemma latch_open_before_start (s : State) :
  reachable s -> started s = false -> completed s = false.
Proof.
  intros Hr Hs. destruct (reachable_invariant s Hr) as (_ & _ & _ & Hsp).
  now destruct (Hsp Hs) as (_ & _ & ->).
Qed.

Lemma reachable_message (s : State) :
  reachable s ->
  message s = message_of s /\
  (completed s = true -> started s = true /\ BUILD_FRAMES <= frame s).
Proof.
  revert s. apply reachable_branches.
  - intros width height. branch_cbv. split; [reflexivity | discriminate].
  - intros s Hr [Hm Hc].
    destruct (reachable_invariant s Hr) as (Hf & _ & _ & Hsplash).
    destruct (started s) eqn:Hs.
    + destruct (paused s) eqn:Hp.
      * rewrite (update_paused s Hs Hp). split; [exact Hm |].
        now rewrite Hs.
      * destruct (update_running s Hs Hp)
          as (Hf' & Hs' & Hp' & _ & _ & Hc' & Hm').
        unfold message_of in *. rewrite Hp in Hm.
        rewrite Hs', Hp', Hc', Hm', Hf'.
        destruct (Z.ltb_spec (frame s) BUILD_FRAMES) as [Hlt | Hge];
          cbn [negb andb].
        -- destruct (completed s).
           ++ destruct Hc as [_ Hc]; [reflexivity | lia].
           ++ split; [exact Hm | discriminate].
        -- split; [now destruct (completed s) |]. intros _.
           split; [reflexivity |]. unfold BUILD_FRAMES, PULSE_FRAMES in *.
           destruct (Z.geb_spec (frame s + 1) (100 + 60)); lia.
    + destruct (update_splash s Hs) as (Hf' & Hp' & _ & Hc' & Hs' & _).
      destruct (update_splash_display s Hs) as (_ & _ & _ & _ & Hm' & _).
      unfold message_of in *. rewrite Hm', Hp', Hc', Hs', Hf'.
      now split.
  - intros s Hr [Hm Hc] Hs.
    destruct (reachable_invariant s Hr) as (_ & _ & Ha & _).
    rewrite (start_animation_eq s Ha).
    pose proof (latch_open_before_start s Hr Hs) as Hcf.
    destruct s; branch_cbv; state_cbv_in Hm; state_cbv_in Hcf. subst.
    unfold message_of in Hm. state_cbv_in Hm.
    split; [exact Hm | discriminate].
  - intros s _ [Hm Hc]. now destruct s.
  - intros s _ [Hm Hc] _ _. now destruct s.
  - intros s _ [Hm Hc] _ _. now destruct s.
  - intros s _ [Hm Hc] Hs. unfold toggle_pause, message_of in *.
    destruct s; state_cbv_in Hs; state_cbv_in Hc; subst.
    destruct paused0, completed0; state_cbv;
      (split; [reflexivity | exact Hc]).
  - intros s _ [Hm Hc] Hs. destruct s; branch_cbv.
    split; [reflexivity | discriminate].
  - intros s v _ [Hm Hc] Hs _.
    destruct s; branch_cbv; state_cbv_in Hm; state_cbv_in Hc.
    unfold message_of in Hm. state_cbv_in Hm.
    destruct anim0; state_cbv; now split.
Qed.

(** X3. In every reachable state the message line shows the state: the
    pause notice while paused, otherwise the completion line if the latch
    is closed and nothing if it is open; and the latch is closed only
    after Start with the counter in the pulse window. *)
Theorem message_shows_state (s : State) :
  reachable s ->
  message s = message_of s /\
  (completed s = true -> started s = true /\ BUILD_FRAMES <= frame s).
Proof. exact (reachable_message s). Qed.

Lemma message_shows_state_witness :
  message (step pulsing_state (KeyPress " "))
  = message_of (step pulsing_state (KeyPress " ")).
Proof.
  destruct pulsing_state_facts as (Hr & _).
  exact (proj1 (message_shows_state _ (reach_step _ (KeyPress " ") Hr))).
Defined.

(** ** The start button *)

Lemma Rleb_iff (a b : R) : Rleb a b = true <-> (a <= b)%R.
Proof.
  unfold Rleb. destruct (Rle_dec a b); split; intros H;
    try assumption; try reflexivity; [discriminate | contradiction].
Qed.

Lemma is_over_button_canvas (s s' : State) (e : MouseEvent) :
  canvas s' = canvas s -> is_over_button s' e = is_over_button s e.
Proof.
  intros Hc. unfold is_over_button, transFigure_inverted. now rewrite Hc.
Qed.

Lemma reachable_face (s : State) :
  reachable s -> btn_patch s = face_of (hovering_btn s).
Proof.
  revert s. apply reachable_branches.
  - intros width height. reflexivity.
  - intros s _ IH. now destruct (update_keeps s) as (-> & -> & _).
  - intros s Hr IH _.
    destruct (reachable_invariant s Hr) as (_ & _ & Ha & _).
    rewrite (start_animation_eq s Ha). now destruct s.
  - intros s _ IH. now destruct s.
  - intros s _ _ _ _. reflexivity.
  - intros s _ _ _ _. unfold hover_off, face_of. state_cbv.
    f_equal. lra.
  - intros s _ IH _. unfold toggle_pause. destruct s; state_cbv.
    state_cbv_in IH. destruct paused0; cbv iota;
      [destruct completed0 |]; exact IH.
  - intros s _ IH _. now destruct s.
  - intros s v _ IH _ _. unfold set_speed. destruct s; state_cbv.
    state_cbv_in IH. destruct anim0; exact IH.
Qed.

Lemma is_over_button_hit (s : State) (x y : R) :
  (0.5 - 0.13 <= x / fst (canvas s) <= 0.5 + 0.13)%R ->
  (0.46 - 0.045 <= y / snd (canvas s) <= 0.46 + 0.045)%R ->
  is_over_button s (mkMouseEvent (Some x) (Some y)) = true.
Proof.
  intros [Hx0 Hx1] [Hy0 Hy1].
  unfold is_over_button, transFigure_inverted. cbn [ev_x ev_y fst snd].
  now rewrite !Rleb_true.
Qed.

Lemma is_over_button_miss (s : State) (x y : R) :
  (x / fst (canvas s) < 0.5 - 0.13 \/ 0.5 + 0.13 < x / fst (canvas s) \/
   y / snd (canvas s) < 0.46 - 0.045 \/ 0.46 + 0.045 < y / snd (canvas s))%R ->
  is_over_button s (mkMouseEvent (Some x) (Some y)) = false.
Proof.
  intros Hout.
  unfold is_over_button, transFigure_inverted. cbn [ev_x ev_y fst snd].
  unfold Rleb.
  destruct (Rle_dec (0.5 - 0.13) (x / fst (canvas s)));
    destruct (Rle_dec (x / fst (canvas s)) (0.5 + 0.13));
    destruct (Rle_dec (0.46 - 0.045) (y / snd (canvas s)));
    destruct (Rle_dec (y / snd (canvas s)) (0.46 + 0.045));
    try reflexivity.
  exfalso. lra.
Qed.

Lemma scaled_le (a x w : R) :
  (0 < w)%R -> ((a * w <= x)%R <-> (a <= x / w)%R) /\
               ((x <= a * w)%R <-> (x / w <= a)%R) /\
               ((x < a * w)%R <-> (x / w < a)%R) /\
               ((a * w < x)%R <-> (a < x / w)%R).
Proof.
  intros Hw.
  assert (Hx : (x = x / w * w)%R) by (field; lra).
  assert (Hi : (0 < / w)%R) by now apply Rinv_0_lt_compat.
  repeat split; intros H.
  - apply (Rmult_le_reg_r w); [exact Hw | lra].
  - rewrite Hx. apply Rmult_le_compat_r; lra.
  - apply (Rmult_le_reg_r w); [exact Hw | lra].
  - rewrite Hx. apply Rmult_le_compat_r; lra.
  - apply (Rmult_lt_reg_r w); [exact Hw | lra].
  - rewrite Hx. apply Rmult_lt_compat_r; lra.
  - apply (Rmult_lt_reg_r w); [exact Hw | lra].
  - rewrite Hx. apply Rmult_lt_compat_r; lra.
Qed.

(** X4. The button on a canvas of at least one pixel each way.  A
    pointer well inside the rectangle of the hit test, [x] within 0.38
    and 0.62 of the width and [y] within 0.425 and 0.495 of the height,
    is over the button, and one well outside, [x] below 0.36 or above
    0.64 of the width or [y] below 0.405 or above 0.515 of the height, is
    not; the margin of a hundredth around the edges of the rectangle
    leaves room for the rounding of the floats.  Before Start a click
    starts the animation if the hit test answers true and changes nothing
    otherwise; after Start no click changes anything. *)
Theorem button_hit_region (s : State) (x y : R) :
  (1 <= fst (canvas s))%R -> (1 <= snd (canvas s))%R ->
  let e := mkMouseEvent (Some x) (Some y) in
  ((0.38 * fst (canvas s) <= x <= 0.62 * fst (canvas s))%R ->
   (0.425 * snd (canvas s) <= y <= 0.495 * snd (canvas s))%R ->
   is_over_button s e = true) /\
  ((x < 0.36 * fst (canvas s) \/ 0.64 * fst (canvas s) < x \/
    y < 0.405 * snd (canvas s) \/ 0.515 * snd (canvas s) < y)%R ->
   is_over_button s e = false) /\
  (started s = false ->
   started (on_click s e) = is_over_button s e /\
   (is_over_button s e = false -> on_click s e = s)) /\
  (started s = true -> on_click s e = s).
Proof.
  intros Hw Hh e.
  assert (Hw0 : (0 < fst (canvas s))%R) by lra.
  assert (Hh0 : (0 < snd (canvas s))%R) by lra.
  split; [| split; [| split]].
  - intros [Hx0 Hx1] [Hy0 Hy1]. apply is_over_button_hit.
    + destruct (scaled_le 0.38 x _ Hw0) as (Ha & _).
      destruct (scaled_le 0.62 x _ Hw0) as (_ & Hb & _).
      apply Ha in Hx0. apply Hb in Hx1. lra.
    + destruct (scaled_le 0.425 y _ Hh0) as (Ha & _).
      destruct (scaled_le 0.495 y _ Hh0) as (_ & Hb & _).
      apply Ha in Hy0. apply Hb in Hy1. lra.
  - intros Hout. apply is_over_button_miss.
    destruct (scaled_le 0.36 x _ Hw0) as (_ & _ & Hxa & _).
    destruct (scaled_le 0.64 x _ Hw0) as (_ & _ & _ & Hxb).
    destruct (scaled_le 0.405 y _ Hh0) as (_ & _ & Hya & _).
    destruct (scaled_le 0.515 y _ Hh0) as (_ & _ & _ & Hyb).
    destruct Hout as [H | [H | [H | H]]].
    + apply Hxa in H. left. lra.
    + apply Hxb in H. right; left. lra.
    + apply Hya in H. right; right; left. lra.
    + apply Hyb in H. right; right; right. lra.
  - intros Hs. unfold on_click. rewrite Hs. cbn [negb].
    destruct (is_over_button s e).
    + split; [| discriminate].
      now destruct (start_animation_attrs s) as (-> & _).
    + now split.
  - intros Hs. unfold on_click. now rewrite Hs.
Qed.

Lemma button_hit_region_witness :
  is_over_button (run (init 1000 900))
    (mkMouseEvent (Some 600%R) (Some 400%R)) = true /\
  on_click started_state (mkMouseEvent (Some 600%R) (Some 400%R))
  = started_state.
Proof.
  split.
  - apply (proj1 (button_hit_region (run (init 1000 900)) 600 400
                    ltac:(cbn [canvas run init set_anim fst snd]; lra)
                    ltac:(cbn [canvas run init set_anim fst snd]; lra)));
      cbn [canvas run init set_anim fst snd]; lra.
  - assert (Hw : (1 <= fst (canvas started_state))%R).
    { change (fst (canvas started_state)) with 1000%R. lra. }
    assert (Hh : (1 <= snd (canvas started_state))%R).
    { change (snd (canvas started_state)) with 900%R. lra. }
    apply (proj2 (proj2 (proj2
             (button_hit_region started_state 600 400 Hw Hh)))).
    reflexivity.
Defined.

(** X5. Before Start the hover flag follows the pointer: after a motion
    event it says whether the pointer is over the button, and a second
    motion event at the same place changes nothing; in every reachable
    state the face of the button is the one of the flag (highlighted or
    plain), and no motion event changes anything after Start. *)
Theorem hover_follows_pointer (s : State) (e : MouseEvent) :
  reachable s ->
  btn_patch s = face_of (hovering_btn s) /\
  btn_patch (on_motion s e) = face_of (hovering_btn (on_motion s e)) /\
  (started s = false ->
   hovering_btn (on_motion s e) = is_over_button s e /\
   on_motion (on_motion s e) e = on_motion s e) /\
  (started s = true -> on_motion s e = s).
Proof.
  intros Hr. split; [now apply reachable_face |].
  split; [apply reachable_face; exact (reach_step s (Motion e) Hr) |].
  split.
  - intros Hs.
    destruct (on_motion_cases s e)
      as [(_ & Hh & Ho & Heq) | [(_ & Hh & Ho & Heq) | Heq]].
    + rewrite Heq, Ho. split; [reflexivity |].
      unfold on_motion at 1.
      rewrite (is_over_button_canvas s (hover_on s) e eq_refl), Ho.
      change (started (hover_on s)) with (started s). rewrite Hs.
      reflexivity.
    + rewrite Heq, Ho. split; [reflexivity |].
      unfold on_motion at 1.
      rewrite (is_over_button_canvas s (hover_off s) e eq_refl), Ho.
      change (started (hover_off s)) with (started s). rewrite Hs.
      reflexivity.
    + rewrite !Heq. split; [| reflexivity].
      unfold on_motion in Heq. rewrite Hs in Heq. cbn [negb] in Heq.
      destruct (is_over_button s e), (hovering_btn s) eqn:Hh;
        cbn [negb andb] in Heq; try reflexivity.
      * apply (f_equal hovering_btn) in Heq.
        change (hovering_btn (draw_idle _)) with true in Heq.
        now rewrite Hh in Heq.
      * apply (f_equal hovering_btn) in Heq.
        change (hovering_btn (draw_idle _)) with false in Heq.
        now rewrite Hh in Heq.
  - intros Hs. unfold on_motion. now rewrite Hs.
Qed.

Lemma hover_follows_pointer_witness :
  hovering_btn (on_motion hovered_state no_position)
  = is_over_button hovered_state no_position.
Proof.
  destruct hovered_state_facts as (Hr & Hs & _).
  destruct (hover_follows_pointer hovered_state no_position Hr)
    as (_ & _ & Hbefore & _).
  exact (proj1 (Hbefore Hs)).
Defined.

(** ** Keys that are not commands, and quitting *)

Lemma start_animation_closed (s : State) :
  closed (start_animation s) = closed s.
Proof.
  unfold start_animation. cbv zeta. rewrite remove_start_screen_eq.
  destruct s; state_cbv. now destruct anim0.
Qed.

Lemma on_key_press_closed (s : State) (key : string) :
  closed (on_key_press s key) = closed s || key_in key ["q"; "escape"].
Proof.
  destruct (started s) eqn:Hs.
  - unfold on_key_press. rewrite Hs. cbn [negb].
    destruct (String.eqb_spec key " ") as [-> | _].
    { destruct s; state_cbv. destruct paused0; cbv iota;
        [destruct completed0 |]; state_cbv; now rewrite orb_false_r. }
    destruct (String.eqb_spec key "r") as [-> | _].
    { destruct s; state_cbv. now rewrite orb_false_r. }
    destruct (key_in key ["q"; "escape"]) eqn:Hq.
    { destruct s; state_cbv. now rewrite orb_true_r. }
    rewrite orb_false_r.
    destruct (key =? "up")%string; [destruct s; state_cbv; now destruct anim0 |].
    destruct (key =? "down")%string; [destruct s; state_cbv; now destruct anim0 |].
    reflexivity.
  - rewrite (key_before_start s key Hs).
    destruct (key_in key [" "; "enter"]) eqn:Hst.
    + rewrite start_animation_closed.
      assert (Hq : key_in key ["q"; "escape"] = false).
      { unfold key_in in *. cbn [existsb] in *.
        destruct (String.eqb_spec key " ") as [-> | _]; [reflexivity |].
        destruct (String.eqb_spec key "enter") as [-> | _]; [reflexivity |].
        discriminate Hst. }
      now rewrite Hq, orb_false_r.
    + destruct (key_in key ["q"; "escape"]).
      * destruct s; state_cbv. now rewrite orb_true_r.
      * now rewrite orb_false_r.
Qed.

(** X6. The window is closed by the keys [q] and [escape] and by nothing
    else: after an event the figure is closed exactly when it was closed
    before or the event is one of these two keys, before Start as well as
    after. *)
Theorem only_quit_keys_close (s : State) (e : event) :
  closed (step s e) = true <->
  closed s = true \/ e = KeyPress "q" \/ e = KeyPress "escape".
Proof.
  destruct e as [| m | m | key]; cbn [step].
  - destruct (update_keeps s) as (_ & _ & -> & _).
    split; [now left | intros [H | [H | H]]; [exact H | |]; discriminate H].
  - assert (Hc : closed (on_click s m) = closed s).
    { destruct (on_click_cases s m) as [(_ & _ & ->) | ->];
        [apply start_animation_closed | reflexivity]. }
    rewrite Hc.
    split; [now left | intros [H | [H | H]]; [exact H | |]; discriminate H].
  - assert (Hc : closed (on_motion s m) = closed s).
    { destruct (on_motion_cases s m)
        as [(_ & _ & _ & ->) | [(_ & _ & _ & ->) | ->]]; reflexivity. }
    rewrite Hc.
    split; [now left | intros [H | [H | H]]; [exact H | |]; discriminate H].
  - rewrite on_key_press_closed, orb_true_iff.
    unfold key_in. cbn [existsb]. rewrite !orb_true_iff, !String.eqb_eq.
    split.
    + intros [H | [-> | [-> | H]]]; [now left | now right; left |
        now right; right | discriminate H].
    + intros [H | [H | H]]; [now left | |]; injection H as ->;
        right; [now left | now right; left].
Qed.

(** X7. A key that is not one of the seven known keys changes nothing,
    and before Start neither do [r], [up] and [down]: the counter, the
    speed and the pause flag cannot move on the start screen. *)
Theorem other_keys_ignored (s : State) (key : string) :
  (~ In key known_keys -> on_key_press s key = s) /\
  (started s = false -> In key ["r"; "up"; "down"] ->
   on_key_press s key = s).
Proof.
  split.
  - intros Hk. unfold known_keys in Hk. cbn [In] in Hk.
    assert (Hne : forall k, In k known_keys -> (key =? k)%string = false).
    { intros k Hin. apply String.eqb_neq. intros ->. apply Hk.
      unfold known_keys in Hin. cbn [In] in Hin. tauto. }
    unfold on_key_press, key_in. cbn [existsb].
    rewrite !Hne by (unfold known_keys; cbn [In]; tauto).
    cbn [orb]. now destruct (negb (started s)).
  - intros Hs Hk. rewrite (key_before_start s key Hs).
    cbn [In] in Hk. destruct Hk as [<- | [<- | [<- | []]]]; reflexivity.
Qed.

Lemma other_keys_ignored_witness :
  on_key_press started_state "p" = started_state /\
  on_key_press (run (init 1000 900)) "up" = run (init 1000 900).
Proof.
  split.
  - apply (proj1 (other_keys_ignored started_state "p")).
    unfold known_keys. cbn [In]. intros H.
    repeat (destruct H as [H | H]; [discriminate H |]). exact H.
  - apply (proj2 (other_keys_ignored (run (init 1000 900)) "up"));
      [reflexivity | cbn [In]; tauto].
Defined.

(** ** More on the curve and its samples *)

Section CurveShape.
Local Open Scope R_scope.

Lemma ease_in_out_range (t : R) : 0 <= ease_in_out t <= 1.
Proof.
  pose proof (np_clip_range t 0 1 ltac:(lra)) as [H0 H1].
  unfold ease_in_out. set (c := np_clip t 0 1) in *.
  split.
  - apply Rmult_le_pos; [apply Rmult_le_pos |]; lra.
  - assert (H : 0 <= (1 - c) * (1 - c) * (1 + 2 * c)).
    { apply Rmult_le_pos; [apply Rmult_le_pos |]; lra. }
    lra.
Qed.

Lemma heart_curve_finite (x : list R) (k amplitude : R) :
  length (heart_curve x k amplitude) = length x /\
  Forall (fun y => y <> None) (heart_curve x k amplitude).
Proof.
  split; [apply length_map |].
  unfold heart_curve. apply Forall_forall. intros y Hy.
  apply in_map_iff in Hy. destruct Hy as (xi & <- & _).
  destruct (heart_point_finite k amplitude xi) as (b & _ & _ & ->).
  discriminate.
Qed.




Lemma linspace_nth (a b : R) (n i : nat) :
  (i < n)%nat ->
  nth i (linspace a b n) 0 = a + INR i * ((b - a) / INR (n - 1)).
Proof.
  intros Hi. unfold linspace.
  set (f := fun j : nat => a + INR j * ((b - a) / INR (n - 1))).
  rewrite (nth_indep _ 0 (f O)) by now rewrite length_map, length_seq.
  rewrite (map_nth f). rewrite seq_nth by exact Hi. reflexivity.
Qed.

(** X9. The abscissas [self.x]: [NUM_POINTS] samples that start at
    [-sqrt 3], end at [sqrt 3] and increase strictly in between, so that
    all of them lie in the domain of the curve, where the clamp of the
    radicand changes nothing. *)
Theorem x_samples_increasing (i j : nat) :
  (i < j)%nat -> (j < NUM_POINTS)%nat ->
  length x_samples = NUM_POINTS /\
  nth 0 x_samples 0 = - sqrt 3 /\
  nth (NUM_POINTS - 1) x_samples 0 = sqrt 3 /\
  nth i x_samples 0 < nth j x_samples 0 /\
  - sqrt 3 <= nth j x_samples 0 <= sqrt 3 /\
  Rmax 0 (3 - nth j x_samples 0 ^ 2) = 3 - nth j x_samples 0 ^ 2.
Proof.
  intros Hij Hj.
  assert (H3 : 0 < sqrt 3) by (apply sqrt_lt_R0; lra).
  assert (Hn : (0 < NUM_POINTS - 1)%nat) by (unfold NUM_POINTS; lia).
  assert (Hpos : 0 < INR (NUM_POINTS - 1)) by now apply lt_0_INR.
  assert (Hstep : 0 < (sqrt 3 - - sqrt 3) / INR (NUM_POINTS - 1)).
  { apply Rdiv_lt_0_compat; lra. }
  assert (Hdom : - sqrt 3 <= nth j x_samples 0 <= sqrt 3).
  { destruct x_samples_domain as [Hlen Hall].
    rewrite Forall_forall in Hall. apply Hall. apply nth_In.
    now rewrite Hlen. }
  split; [apply x_samples_domain |]. unfold x_samples in *.
  split; [| split; [| split; [| split]]].
  - rewrite linspace_nth by lia. simpl INR. lra.
  - rewrite linspace_nth by lia. field. lra.
  - rewrite !linspace_nth by lia.
    assert (Hlt : INR i < INR j) by now apply lt_INR.
    nra.
  - exact Hdom.
  - now apply radicand_in_domain.
Qed.

Lemma x_samples_increasing_witness :
  nth 0 x_samples 0 < nth 2999 x_samples 0.
Proof.
  assert (H1 : (0 < 2999)%nat) by lia.
  assert (H2 : (2999 < NUM_POINTS)%nat) by (unfold NUM_POINTS; lia).
  exact (proj1 (proj2 (proj2 (proj2 (x_samples_increasing 0 2999 H1 H2))))).
Defined.

End CurveShape.

(** ** What is drawn *)

Lemma layers_consistent_same (s s' : State) :
  glow_outer s' = glow_outer s -> glow_inner s' = glow_inner s ->
  core_line s' = core_line s ->
  layers_consistent s -> layers_consistent s'.
Proof. unfold layers_consistent. now intros -> -> ->. Qed.

Lemma layers_consistent_drawn (s : State) (k amplitude factor : R) :
  (0.4 <= factor <= 1)%R ->
  glow_outer s
  = mkLine x_samples (heart_curve x_samples k amplitude) (0.10 * factor) ->
  glow_inner s
  = mkLine x_samples (heart_curve x_samples k amplitude) (0.25 * factor) ->
  core_line s
  = mkLine x_samples (heart_curve x_samples k amplitude) (0.95 * factor) ->
  layers_consistent s.
Proof.
  intros Hf Ho Hi Hc. unfold layers_consistent. rewrite Ho, Hi, Hc.
  cbn [xdata ydata line_alpha].
  destruct (heart_curve_finite x_samples k amplitude) as [Hlen Hfin].
  repeat split; try assumption; [now right |].
  exists factor. split; [exact Hf |]. repeat split; reflexivity.
Qed.

Lemma build_progress (f : Z) :
  0 <= f < BUILD_FRAMES ->
  (0 <= IZR f / IZR (BUILD_FRAMES - 1) <= 1)%R.
Proof.
  unfold BUILD_FRAMES. intros Hf. change (100 - 1) with 99.
  assert (H0 : (0 <= IZR f)%R) by (apply IZR_le; lia).
  assert (H1 : (IZR f <= 99)%R) by (apply IZR_le; lia).
  split.
  - apply Rmult_le_pos; [exact H0 |]. lra.
  - apply (Rmult_le_reg_r 99); [lra |].
    unfold Rdiv. rewrite Rmult_assoc, Rinv_l; lra.
Qed.

Lemma reachable_layers (s : State) :
  reachable s ->
  layers_consistent s /\ (0 <= k_display s <= 50)%R.
Proof.
  revert s. apply reachable_branches.
  - intros width height. unfold layers_consistent. branch_cbv.
    repeat split; try lra; [now left | constructor |].
    exists 1%R. split; [lra |]. repeat split; lra.
  - intros s Hr [IH Hk].
    destruct (reachable_invariant s Hr) as (Hf & _).
    destruct (started s) eqn:Hs.
    + destruct (paused s) eqn:Hp.
      * rewrite (update_paused s Hs Hp). now split.
      * destruct (Z.ltb_spec (frame s) BUILD_FRAMES) as [Hlt | Hge].
        -- destruct (update_building s Hs Hp Hlt) as (Hk' & Ho & Hi & Hc).
           cbv zeta in *.
           pose proof (build_progress (frame s) ltac:(lia)) as Ht.
           split.
           ++ eapply layers_consistent_drawn; [| exact Ho | exact Hi
                | exact Hc]. lra.
           ++ rewrite Hk'. unfold K_FINAL.
              pose proof (ease_in_out_range
                            (IZR (frame s) / IZR (BUILD_FRAMES - 1))).
              lra.
        -- destruct (update_pulsing s Hs Hp Hge) as (Hk' & Ho & Hi & Hc).
           cbv zeta in *. split.
           ++ eapply layers_consistent_drawn; [| exact Ho | exact Hi
                | exact Hc]. lra.
           ++ rewrite Hk'. unfold K_FINAL. lra.
    + destruct (update_splash_display s Hs) as (Ho & Hi & Hc & Hk' & _).
      split; [now apply (layers_consistent_same s) | now rewrite Hk'].
  - intros s Hr [IH Hk] _.
    destruct (reachable_invariant s Hr) as (_ & _ & Ha & _).
    rewrite (start_animation_eq s Ha).
    split; [apply (layers_consistent_same s); try exact IH |];
      now destruct s.
  - intros s _ [IH Hk].
    split; [apply (layers_consistent_same s); try exact IH |];
      now destruct s.
  - intros s _ [IH Hk] _ _.
    split; [apply (layers_consistent_same s); try exact IH |];
      now destruct s.
  - intros s _ [IH Hk] _ _.
    split; [apply (layers_consistent_same s); try exact IH |];
      now destruct s.
  - intros s _ [IH Hk] _. unfold toggle_pause.
    split; [apply (layers_consistent_same s); try exact IH |];
      destruct s; state_cbv; destruct paused0; cbv iota;
      try destruct completed0; try reflexivity; exact Hk.
  - intros s _ [IH Hk] _.
    destruct IH as (_ & _ & _ & _ & _ & _ & _ & factor & Hf & Hc & Hi & Ho).
    unfold restart, layers_consistent. destruct s; state_cbv.
    state_cbv_in Hc. state_cbv_in Hi. state_cbv_in Ho.
    split; [| lra].
    repeat split; [now left | constructor |].
    exists factor. split; [exact Hf |]. repeat split; assumption.
  - intros s v _ [IH Hk] _ _. unfold set_speed.
    split; [apply (layers_consistent_same s); try exact IH |];
      destruct s; state_cbv; destruct anim0; try reflexivity; exact Hk.
Qed.

(** X10. In every reachable state the three curve layers hold the same
    points, either none or one ordinate for each of the [NUM_POINTS]
    abscissas, every ordinate finite; their opacities are 0.95, 0.25 and
    0.10 times one fade-in factor between 0.4 and 1; and the [k] of the
    readout is between 0 and 50. *)
Theorem drawn_curve_consistent (s : State) :
  reachable s ->
  layers_consistent s /\ (0 <= k_display s <= 50)%R /\
  (length (ydata (core_line s)) = 0%nat \/
   length (ydata (core_line s)) = NUM_POINTS).
Proof.
  intros Hr. destruct (reachable_layers s Hr) as [Hl Hk].
  split; [exact Hl |]. split; [exact Hk |].
  destruct Hl as (_ & _ & _ & _ & Hlen & [Hx | Hx] & _); rewrite Hlen, Hx.
  - now left.
  - right. apply x_samples_domain.
Qed.

Lemma drawn_curve_consistent_witness :
  layers_consistent (update pulsing_state) /\
  (0 <= k_display (update pulsing_state) <= 50)%R.
Proof.
  destruct pulsing_state_facts as (Hr & _).
  destruct (drawn_curve_consistent _ (reach_step _ Tick Hr)) as (Hl & Hk & _).
  split; [exact Hl | exact Hk].
Defined.

(** ** The build ramp and the breathing *)

(** X11. Over the build frames [k] only grows: of two Building ticks the
    one with the later frame draws a [k] and a fade-in opacity at least
    as large, [k] staying between 0 and 50 and the opacity of the core
    line between [0.95 * 0.4] and 0.95; the tick of frame 0 draws the
    plain arch, [k = 0]. *)
Theorem build_ramp_monotone (s1 s2 : State) :
  started s1 = true -> paused s1 = false ->
  started s2 = true -> paused s2 = false ->
  0 <= frame s1 -> frame s1 <= frame s2 -> frame s2 < BUILD_FRAMES ->
  (0 <= k_display (update s1) <= k_display (update s2) /\
   k_display (update s2) <= 50 /\
   0.95 * 0.4 <= line_alpha (core_line (update s1))
   <= line_alpha (core_line (update s2)) /\
   line_alpha (core_line (update s2)) <= 0.95)%R /\
  (frame s1 = 0 ->
   k_display (update s1) = 0%R /\
   ydata (core_line (update s1)) = heart_curve x_samples 0 0.9).
Proof.
  intros Hs1 Hp1 Hs2 Hp2 H0 H12 H2.
  destruct (update_building s1 Hs1 Hp1 ltac:(lia)) as (Hk1 & _ & _ & Hc1).
  destruct (update_building s2 Hs2 Hp2 H2) as (Hk2 & _ & _ & Hc2).
  cbv zeta in *.
  pose proof (build_progress (frame s1) ltac:(lia)) as Ht1.
  pose proof (build_progress (frame s2) ltac:(lia)) as Ht2.
  assert (Ht : (IZR (frame s1) / IZR (BUILD_FRAMES - 1)
                <= IZR (frame s2) / IZR (BUILD_FRAMES - 1))%R).
  { unfold Rdiv. apply Rmult_le_compat_r.
    - left. apply Rinv_0_lt_compat. unfold BUILD_FRAMES.
      change (100 - 1) with 99. lra.
    - now apply IZR_le. }
  pose proof (ease_in_out_monotone _ _ Ht) as He.
  pose proof (ease_in_out_range (IZR (frame s1) / IZR (BUILD_FRAMES - 1))).
  pose proof (ease_in_out_range (IZR (frame s2) / IZR (BUILD_FRAMES - 1))).
  split.
  - rewrite Hk1, Hk2, Hc1, Hc2. cbn [line_alpha]. unfold K_FINAL.
    repeat split; lra.
  - intros Hf. rewrite Hk1, Hc1, Hf. cbn [ydata]. unfold K_FINAL.
    assert (Hz : (50 * ease_in_out (0 / IZR (BUILD_FRAMES - 1)) = 0)%R).
    { replace (0 / IZR (BUILD_FRAMES - 1))%R with 0%R
        by (unfold Rdiv; ring).
      rewrite ease_in_out_unit by lra. ring. }
    rewrite Hz. now split.
Qed.

Lemma build_ramp_monotone_witness :
  (k_display (update started_state)
   <= k_display (update (ticks 1 started_state)))%R.
Proof.
  destruct started_state_facts as (_ & Hs & Hp & Hf & Hc & _).
  destruct (ticks_started_paused 1 _ Hs Hp) as [Hs1 Hp1].
  destruct (ticks_building 1 _ Hs Hp Hf Hc ltac:(lia)) as (Hf1 & _).
  assert (H0 : 0 <= frame started_state) by (rewrite Hf; reflexivity).
  assert (H1 : frame started_state <= frame (ticks 1 started_state))
    by (rewrite Hf, Hf1; discriminate).
  assert (H2 : frame (ticks 1 started_state) < BUILD_FRAMES)
    by (rewrite Hf1; reflexivity).
  exact (proj2 (proj1 (proj1
           (build_ramp_monotone _ _ Hs Hp Hs1 Hp1 H0 H1 H2)))).
Defined.

Lemma pulse_step (f : Z) (n : nat) :
  BUILD_FRAMES <= f < BUILD_FRAMES + PULSE_FRAMES ->
  (if BUILD_FRAMES + (f - BUILD_FRAMES + Z.of_nat n) mod PULSE_FRAMES + 1
      >=? BUILD_FRAMES + PULSE_FRAMES
   then BUILD_FRAMES
   else BUILD_FRAMES + (f - BUILD_FRAMES + Z.of_nat n) mod PULSE_FRAMES + 1)
  = BUILD_FRAMES + (f - BUILD_FRAMES + Z.of_nat (S n)) mod PULSE_FRAMES.
Proof.
  unfold BUILD_FRAMES, PULSE_FRAMES. intros Hf.
  set (m := f - 100 + Z.of_nat n).
  replace (f - 100 + Z.of_nat (S n)) with (m + 1) by lia.
  pose proof (Z.mod_pos_bound m 60 ltac:(lia)) as Hm.
  pose proof (Z.div_mod m 60 ltac:(lia)) as Hdm.
  destruct (Z.geb_spec (100 + m mod 60 + 1) (100 + 60)) as [Hge | Hlt].
  - assert (Hr : m mod 60 = 59) by lia.
    symmetry. replace (m + 1) with (0 + (m / 60 + 1) * 60) by lia.
    rewrite Z.mod_add by lia. reflexivity.
  - symmetry. replace (m + 1) with ((m mod 60 + 1) + (m / 60) * 60) by lia.
    rewrite Z.mod_add by lia. rewrite Z.mod_small by lia. lia.
Qed.

(** The counter of a running animation in the pulse window, after [n]
    ticks. *)
Lemma pulse_cycle (s : State) (n : nat) :
  started s = true -> paused s = false ->
  BUILD_FRAMES <= frame s < BUILD_FRAMES + PULSE_FRAMES ->
  frame (ticks n s)
  = BUILD_FRAMES + (frame s - BUILD_FRAMES + Z.of_nat n) mod PULSE_FRAMES /\
  (completed s = true -> completed (ticks n s) = true).
Proof.
  intros Hs Hp Hf. induction n as [| n [IHf IHc]].
  - split; [| trivial]. change (ticks 0 s) with s.
    change (Z.of_nat 0) with 0.
    rewrite Z.add_0_r, Z.mod_small; unfold BUILD_FRAMES, PULSE_FRAMES in *;
      lia.
  - destruct (ticks_started_paused n s Hs Hp) as [Hsn Hpn].
    rewrite ticks_S.
    destruct (update_running _ Hsn Hpn) as (-> & _ & _ & _ & _ & -> & _).
    rewrite IHf. split; [now apply pulse_step |].
    intros _.
    pose proof (Z.mod_pos_bound (frame s - BUILD_FRAMES + Z.of_nat n)
                  PULSE_FRAMES ltac:(unfold PULSE_FRAMES; lia)) as Hm.
    assert (Hge : (BUILD_FRAMES
                   + (frame s - BUILD_FRAMES + Z.of_nat n) mod PULSE_FRAMES
                   <? BUILD_FRAMES) = false) by (apply Z.ltb_ge; lia).
    now rewrite Hge.
Qed.

(** X12. A Pulsing tick draws [k = 50] on the three layers at their
    base opacity, the same curve on each, with the amplitude
    [0.9 + 0.035 * sin(2 pi idx / 20)] of its pulse index, which lies
    between 0.865 and 0.935; the pulse window is three periods of 20
    frames of that breath. *)
Theorem pulsing_breath (s : State) :
  started s = true -> paused s = false -> BUILD_FRAMES <= frame s ->
  (exists amplitude : R,
     (0.865 <= amplitude <= 0.935)%R /\
     amplitude
     = (0.9 + 0.035 * sin (2 * PI * IZR (frame s - BUILD_FRAMES) / 20))%R /\
     core_line (update s)
     = mkLine x_samples (heart_curve x_samples 50 amplitude) (0.95 * 1) /\
     glow_inner (update s)
     = mkLine x_samples (heart_curve x_samples 50 amplitude) (0.25 * 1) /\
     glow_outer (update s)
     = mkLine x_samples (heart_curve x_samples 50 amplitude) (0.10 * 1)) /\
  k_display (update s) = 50%R /\
  PULSE_FRAMES = 3 * 20.
Proof.
  intros Hs Hp Hge.
  destruct (update_pulsing s Hs Hp Hge) as (Hk & Ho & Hi & Hc).
  cbv zeta in *. rewrite Ho, Hi, Hc, Hk.
  split; [| now split].
  exists (0.9 + 0.035 * sin (2 * PI * IZR (frame s - BUILD_FRAMES) / 20))%R.
  split; [| now repeat split].
  pose proof (SIN_bound (2 * PI * IZR (frame s - BUILD_FRAMES) / 20)).
  lra.
Qed.

Lemma pulsing_breath_witness :
  k_display (update pulsing_state) = 50%R.
Proof.
  destruct pulsing_state_facts as (_ & Hs & Hp & Hf).
  assert (Hge : BUILD_FRAMES <= frame pulsing_state)
    by (rewrite Hf; apply Z.le_refl).
  exact (proj1 (proj2 (pulsing_breath pulsing_state Hs Hp Hge))).
Defined.

(** X13. In the pulse window the counter of a running animation cycles
    with period [PULSE_FRAMES]: after [n] ticks it is [BUILD_FRAMES] plus
    the pulse index advanced by [n] modulo [PULSE_FRAMES], so 60 ticks
    bring it back to where it was; and a closed latch stays closed. *)
Theorem pulse_counter_cycles (s : State) (n : nat) :
  started s = true -> paused s = false ->
  BUILD_FRAMES <= frame s < BUILD_FRAMES + PULSE_FRAMES ->
  frame (ticks n s)
  = BUILD_FRAMES + (frame s - BUILD_FRAMES + Z.of_nat n) mod PULSE_FRAMES /\
  frame (ticks 60 s) = frame s /\
  frame (ticks (n + 60) s) = frame (ticks n s) /\
  (completed s = true -> completed (ticks n s) = true).
Proof.
  intros Hs Hp Hf.
  destruct (pulse_cycle s n Hs Hp Hf) as [Hn Hc].
  destruct (pulse_cycle s 60 Hs Hp Hf) as [H60 _].
  destruct (pulse_cycle s (n + 60) Hs Hp Hf) as [Hn60 _].
  split; [exact Hn |]. split; [| split; [| exact Hc]].
  - rewrite H60. unfold BUILD_FRAMES, PULSE_FRAMES in *.
    change (Z.of_nat 60) with (1 * 60).
    rewrite Z.mod_add by lia. rewrite Z.mod_small by lia. lia.
  - rewrite Hn60, Hn. unfold BUILD_FRAMES, PULSE_FRAMES.
    replace (frame s - 100 + Z.of_nat (n + 60))
      with (frame s - 100 + Z.of_nat n + 1 * 60) by lia.
    now rewrite Z.mod_add by lia.
Qed.

Lemma pulse_counter_cycles_witness :
  frame (ticks 60 pulsing_state) = frame pulsing_state.
Proof.
  destruct pulsing_state_facts as (_ & Hs & Hp & Hf).
  assert (Hw : BUILD_FRAMES <= frame pulsing_state
               < BUILD_FRAMES + PULSE_FRAMES)
    by (rewrite Hf; unfold BUILD_FRAMES, PULSE_FRAMES; lia).
  exact (proj1 (proj2 (pulse_counter_cycles pulsing_state 0 Hs Hp Hw))).
Defined.

Lemma restart_running (s : State) :
  started s = true ->
  started (on_key_press s "r") = true /\
  paused (on_key_press s "r") = false /\
  frame (on_key_press s "r") = 0 /\
  completed (on_key_press s "r") = false /\
  message (on_key_press s "r") = mkText "" 0.
Proof.
  intros Hs. rewrite (key_restart s Hs).
  destruct s; state_cbv_in Hs; subst. now repeat split.
Qed.

(** X14. The restart key replays the whole build, from any started state,
    paused or not: the 100 ticks after it leave the counter at
    [BUILD_FRAMES] with the latch open and no message, and tick 101
    closes the latch and shows the completion line again. *)
Theorem restart_replays_build (s : State) (n : nat) :
  started s = true -> (n <= 100)%nat ->
  let r := on_key_press s "r" in
  frame (ticks n r) = Z.of_nat n /\
  completed (ticks n r) = false /\
  message (ticks n r) = mkText "" 0 /\
  frame (ticks 101 r) = BUILD_FRAMES + 1 /\
  completed (ticks 101 r) = true /\
  message (ticks 101 r) = mkText completion_text 0.7.
Proof.
  intros Hs Hn r.
  destruct (restart_running s Hs) as (Hrs & Hrp & Hrf & Hrc & Hrm).
  fold r in Hrs, Hrp, Hrf, Hrc, Hrm.
  destruct (ticks_building n r Hrs Hrp Hrf Hrc Hn) as (Hf & Hc & Hm).
  destruct (ticks_building 100 r Hrs Hrp Hrf Hrc ltac:(lia))
    as (Hf100 & _).
  destruct (ticks_pulsing 101 r Hrs Hrp Hrf Hrc ltac:(lia))
    as (_ & Hc101 & Hm101).
  destruct (ticks_started_paused 100 r Hrs Hrp) as [Hs100 Hp100].
  rewrite Hf, Hc, Hm, Hrm, Hc101, Hm101.
  repeat split.
  rewrite (ticks_S 100 r).
  destruct (update_running _ Hs100 Hp100) as (-> & _).
  rewrite Hf100. reflexivity.
Qed.

Lemma restart_replays_build_witness :
  completed (ticks 101 (on_key_press pulsing_state "r")) = true.
Proof.
  destruct pulsing_state_facts as (_ & Hs & _).
  assert (Hn : (7 <= 100)%nat) by lia.
  exact (proj1 (proj2 (proj2 (proj2 (proj2
           (restart_replays_build pulsing_state 7 Hs Hn)))))).
Defined.

(** X15. Pausing and resuming loses nothing: from a reachable, running
    state, the Space key, any number of ticks and the Space key again
    give back the state itself, but for the two redraws that the key
    presses asked for.  In particular the message that the pause notice
    had replaced is restored. *)
Theorem pause_resume_round_trip (s : State) (n : nat) :
  reachable s -> started s = true -> paused s = false ->
  on_key_press (ticks n (on_key_press s " ")) " "
  = set_draws (S (S (draws s))) s.
Proof.
  intros Hr Hs Hp.
  destruct (reachable_message s Hr) as [Hm _].
  destruct (key_space s Hs) as (Hp' & _ & _ & Hs' & _).
  rewrite Hp in Hp'. cbn [negb] in Hp'.
  assert (Hn : ticks n (on_key_press s " ") = on_key_press s " ").
  { induction n as [| n IH]; [reflexivity |].
    rewrite ticks_S, IH. now apply update_paused. }
  rewrite Hn. unfold message_of in Hm.
  unfold on_key_press.
  destruct s; state_cbv_in Hs; state_cbv_in Hp; state_cbv_in Hm; subst.
  state_cbv. key_eval. cbv iota. state_cbv.
  destruct completed0; reflexivity.
Qed.

Lemma pause_resume_round_trip_witness :
  on_key_press (ticks 10 (on_key_press pulsing_state " ")) " "
  = set_draws (S (S (draws pulsing_state))) pulsing_state.
Proof.
  destruct pulsing_state_facts as (Hr & Hs & Hp & _).
  exact (pause_resume_round_trip pulsing_state 10 Hr Hs Hp).
Defined.

Lemma set_speed_current (s : State) :
  anim s <> None ->
  set_speed (fps s) s = set_anim (Some (1000 / fps s)) s.
Proof.
  intros Ha. unfold set_speed. destruct s; state_cbv_in Ha; state_cbv.
  destruct anim0; [reflexivity | contradiction].
Qed.

Lemma set_speed_twice (v w : Z) (s : State) :
  set_speed v (set_speed w s) = set_speed v s.
Proof. unfold set_speed. destruct s; state_cbv. now destruct anim0. Qed.

(** X16. The speed keys undo each other away from the bounds.  In a
    started state with a timer and the speed within its bounds, Up then
    Down with [fps < 30], and Down then Up with [1 < fps], give back
    every attribute of the state and leave the interval of the timer at
    [1000 // fps] for that speed; at [fps = 30] Up, and at [fps = 1]
    Down, does no more than assign that interval. *)
Theorem speed_keys_round_trip (s : State) :
  started s = true -> 1 <= fps s <= 30 -> anim s <> None ->
  (fps s < 30 ->
   on_key_press (on_key_press s "up") "down"
   = set_anim (Some (1000 / fps s)) s) /\
  (1 < fps s ->
   on_key_press (on_key_press s "down") "up"
   = set_anim (Some (1000 / fps s)) s) /\
  (fps s = 30 -> on_key_press s "up" = set_anim (Some (1000 / fps s)) s) /\
  (fps s = 1 -> on_key_press s "down" = set_anim (Some (1000 / fps s)) s).
Proof.
  intros Hs Hfps Ha.
  destruct (speed_key_running s Hs) as [Hu Hd].
  assert (Hsu : started (on_key_press s "up") = true)
    by now destruct (key_up s Hs) as (_ & _ & -> & _).
  assert (Hsd : started (on_key_press s "down") = true)
    by now destruct (key_down s Hs) as (_ & _ & -> & _).
  destruct (speed_key_running _ Hsu) as [_ Hud].
  destruct (speed_key_running _ Hsd) as [Hdu _].
  destruct (key_up s Hs) as (Hfu & _).
  destruct (key_down s Hs) as (Hfd & _).
  split; [| split; [| split]].
  - intros Hlt. rewrite Hud, Hfu, Hu, set_speed_twice.
    replace (Z.max 1 (Z.min 30 (fps s + 1) - 1)) with (fps s) by lia.
    now apply set_speed_current.
  - intros Hgt. rewrite Hdu, Hfd, Hd, set_speed_twice.
    replace (Z.min 30 (Z.max 1 (fps s - 1) + 1)) with (fps s) by lia.
    now apply set_speed_current.
  - intros H30. rewrite Hu.
    replace (Z.min 30 (fps s + 1)) with (fps s) by lia.
    now apply set_speed_current.
  - intros H1. rewrite Hd.
    replace (Z.max 1 (fps s - 1)) with (fps s) by lia.
    now apply set_speed_current.
Qed.

Lemma speed_keys_round_trip_witness :
  on_key_press (on_key_press started_state "up") "down"
  = set_anim (Some (1000 / fps started_state)) started_state.
Proof.
  destruct started_state_facts as (Hr & Hs & _ & _ & _ & Hfps).
  destruct (reachable_invariant started_state Hr) as (_ & Hb & Ha & _).
  apply (proj1 (speed_keys_round_trip started_state Hs Hb Ha)).
  rewrite Hfps. reflexivity.
Defined.

(** ** The start screen *)

Lemma splash_run (n : nat) (s : State) :
  started s = false ->
  started (ticks n s) = false /\
  splash_tick (ticks n s) = splash_tick s + Z.of_nat n /\
  draws (ticks n s) = (draws s + n)%nat /\
  frame (ticks n s) = frame s /\ fps (ticks n s) = fps s /\
  paused (ticks n s) = paused s /\ completed (ticks n s) = completed s /\
  anim (ticks n s) = anim s /\ core_line (ticks n s) = core_line s /\
  message (ticks n s) = message s.
Proof.
  intros Hs. induction n as [| n IH].
  - change (ticks 0 s) with s. rewrite Z.add_0_r, Nat.add_0_r.
    now repeat split.
  - destruct IH as (IHs & IHt & IHd & IHf & IHfps & IHp & IHc & IHa & IHl
                    & IHm).
    rewrite ticks_S.
    destruct (update_splash _ IHs)
      as (-> & -> & -> & -> & -> & -> & _ & ->).
    destruct (update_splash_display _ IHs)
      as (_ & _ & -> & _ & -> & -> & _).
    rewrite IHt, IHd, IHf, IHfps, IHp, IHc, IHa, IHl, IHm.
    repeat split; lia.
Qed.

(** X17. The start screen.  Before Start, [n] ticks advance the splash
    counter by [n] and ask for [n] redraws, and leave the frame counter,
    the speed, the flags, the timer, the curve and the message as they
    were; after each tick the opacity of the glow of the button is
    [max(0, 0.08 + 0.14 * sin(2 pi tick / 30))], which is never negative
    and never above 0.23, so always an opacity that the figure
    accepts. *)
Theorem splash_pulse (s : State) (n : nat) :
  started s = false ->
  (started (ticks n s) = false /\
   splash_tick (ticks n s) = splash_tick s + Z.of_nat n /\
   draws (ticks n s) = (draws s + n)%nat /\
   frame (ticks n s) = frame s /\ fps (ticks n s) = fps s /\
   paused (ticks n s) = paused s /\ completed (ticks n s) = completed s /\
   anim (ticks n s) = anim s /\ core_line (ticks n s) = core_line s /\
   message (ticks n s) = message s) /\
  (btn_glow_alpha (ticks (S n) s)
   = Rmax 0 (0.08 + 0.14
                    * sin (2 * PI * IZR (splash_tick s + Z.of_nat (S n)) / 30))
   /\
   0 <= btn_glow_alpha (ticks (S n) s) <= 0.23)%R.
Proof.
  intros Hs. split; [now apply splash_run |].
  assert (Halpha : btn_glow_alpha (ticks (S n) s)
            = Rmax 0 (0.08 + 0.14
                        * sin (2 * PI * IZR (splash_tick s + Z.of_nat (S n))
                               / 30))).
  { destruct (splash_run n s Hs) as (Hsn & Htn & _).
    rewrite ticks_S.
    destruct (update_splash_display _ Hsn) as (_ & _ & _ & _ & _ & _ & ->).
    rewrite Htn.
    replace (splash_tick s + Z.of_nat (S n))
      with (splash_tick s + Z.of_nat n + 1) by lia.
    reflexivity. }
  split; [exact Halpha |].
  rewrite Halpha.
  pose proof (SIN_bound (2 * PI * IZR (splash_tick s + Z.of_nat (S n)) / 30))
    as [Hlo Hhi].
  split; [apply Rmax_l |]. apply Rmax_lub; lra.
Qed.

Lemma splash_pulse_witness :
  splash_tick (ticks 45 (run (init 1000 900))) = 45 /\
  frame (ticks 45 (run (init 1000 900))) = 0.
Proof.
  assert (Hs : started (run (init 1000 900)) = false) by reflexivity.
  destruct (splash_pulse (run (init 1000 900)) 45 Hs)
    as ((_ & Ht & _ & Hf & _) & _).
  split; [exact Ht | exact Hf].
Defined.

Lemma reachable_figure (s : State) :
  reachable s ->
  (started s = false ->
   splash_elements s = [Subtitle; BtnGlow; BtnPatch; BtnLabel; Hint] /\
   fig_patches s = [BtnGlow; BtnPatch] /\
   fig_texts s = [Title; Formula; KDisplay; Message; ControlsHint; Credit;
                  Subtitle; BtnLabel; Hint]) /\
  (started s = true ->
   splash_elements s = [] /\ fig_patches s = [] /\
   fig_texts s = [Title; Formula; KDisplay; Message; ControlsHint; Credit]).
Proof.
  revert s. apply reachable_branches.
  - intros width height. split; [now intros _ | discriminate].
  - intros s _ IH. rewrite update_started.
    now destruct (update_keeps s) as (_ & _ & _ & _ & -> & -> & ->).
  - intros s Hr [IH _] Hs.
    destruct (reachable_invariant s Hr) as (_ & _ & Ha & _).
    destruct (IH Hs) as (He & Hp & Ht).
    rewrite (start_animation_eq s Ha), He, Hp, Ht.
    split; [discriminate | intros _]. now destruct s.
  - intros s _ IH. now destruct s.
  - intros s _ IH _ _. now destruct s.
  - intros s _ IH _ _. now destruct s.
  - intros s _ IH _. unfold toggle_pause. destruct s; state_cbv.
    state_cbv_in IH. destruct paused0; cbv iota;
      [destruct completed0 |]; exact IH.
  - intros s _ IH _. now destruct s.
  - intros s v _ IH _ _. unfold set_speed. destruct s; state_cbv.
    state_cbv_in IH. destruct anim0; exact IH.
Qed.

(** X18. Start removes the start screen for good: in every reachable
    state, before Start the figure holds the two button patches and the
    three splash texts beside its six permanent texts, and from Start on
    it holds no patch, exactly the six permanent texts, and an empty list
    of splash elements. *)
Theorem start_screen_gone (s : State) :
  reachable s ->
  (started s = false ->
   splash_elements s = [Subtitle; BtnGlow; BtnPatch; BtnLabel; Hint] /\
   fig_patches s = [BtnGlow; BtnPatch] /\
   fig_texts s = [Title; Formula; KDisplay; Message; ControlsHint; Credit;
                  Subtitle; BtnLabel; Hint]) /\
  (started s = true ->
   splash_elements s = [] /\ fig_patches s = [] /\
   fig_texts s = [Title; Formula; KDisplay; Message; ControlsHint; Credit]).
Proof. exact (reachable_figure s). Qed.

Lemma start_screen_gone_witness :
  fig_patches pulsing_state = [] /\
  fig_texts pulsing_state
  = [Title; Formula; KDisplay; Message; ControlsHint; Credit].
Proof.
  destruct pulsing_state_facts as (Hr & Hs & _).
  destruct (start_screen_gone pulsing_state Hr) as [_ Hafter].
  destruct (Hafter Hs) as (_ & Hp & Ht). split; [exact Hp | exact Ht].
Defined.

(** ** The build ramp on binary64 *)

Lemma ramp_steps_b64 :
  forallb (fun i => ramp_step_b64 (Z.of_nat i)) (seq 0 99) = true.
Proof. vm_compute. reflexivity. Qed.

(** X19. On binary64, as the program computes it, the ramp of [k] over
    the build frames never decreases and never leaves [0, 50]: for every
    frame [f] from 0 to 98, [0 <= k(f) <= k(f + 1) <= 50], with the
    progress [t] of both frames inside the unit interval, so that the
    clamp of the easing never acts; the ramp starts at 0 and ends at 50
    exactly. *)
Theorem build_ramp_b64 (f : Z) :
  0 <= f < BUILD_FRAMES - 1 ->
  PrimFloat.leb 0 (build_k_b64 f) = true /\
  PrimFloat.leb (build_k_b64 f) (build_k_b64 (f + 1)) = true /\
  PrimFloat.leb (build_k_b64 (f + 1)) 50 = true /\
  PrimFloat.leb 0 (build_t_b64 f) = true /\
  PrimFloat.leb (build_t_b64 (f + 1)) 1 = true /\
  build_k_b64 0 = 0%float /\
  build_k_b64 (BUILD_FRAMES - 1) = 50%float.
Proof.
  unfold BUILD_FRAMES. intros Hf.
  pose proof ramp_steps_b64 as Hall. rewrite forallb_forall in Hall.
  assert (Hin : In (Z.to_nat f) (seq 0 99)) by (apply in_seq; lia).
  specialize (Hall _ Hin). rewrite Z2Nat.id in Hall by lia.
  unfold ramp_step_b64 in Hall. rewrite !andb_true_iff in Hall.
  destruct Hall as ((((H0 & H1) & H2) & H3) & H4).
  repeat split; try assumption; vm_compute; reflexivity.
Qed.

Lemma build_ramp_b64_witness :
  PrimFloat.leb (build_k_b64 49) (build_k_b64 (49 + 1)) = true.
Proof.
  assert (Hf : 0 <= 49 < BUILD_FRAMES - 1) by (unfold BUILD_FRAMES; lia).
  exact (proj1 (proj2 (build_ramp_b64 49 Hf))).
Defined.
